(** * Top SQL scraper: the reconnecting stream and its retry driver

    A shallow embedding of [topsql/scraper.go].  The gRPC world (dialling,
    subscribing, reading a stream, waiting on a timer or on the context) is
    an explicit environment: each call pops the next answer of a script and
    appends an event to a trace, so that every run is a computation and the
    order and number of the calls can be read off the trace. *)

From Stdlib Require Import List String ZArith Arith Lia Bool.
Import ListNotations.
Local Open Scope string_scope.

(** ** Values of the Go program *)

(** A [time.Duration] is a number of nanoseconds. *)
Definition Duration := Z.
Definition Second : Duration := 1000000000%Z.

Definition dialTimeout : Duration := (5 * Second)%Z.

(** Identity of a transport connection ([*grpc.ClientConn]); every
    successful dial yields a fresh one. *)
Definition ConnId := nat.

(** [*tls.Config]: only its being nil or not reaches this file. *)
Definition TLSConfig := nat.

(** The two protobuf messages; their content is opaque here. *)
Record TopSQLSubResponse := { sub_response : nat }.
Record ResourceUsageRecord := { usage_record : nat }.

(** A Go [interface{}] holding a record: the nil interface, or a dynamic
    type together with a pointer, which may itself be nil. *)
Inductive iface :=
| INil
| ITopSQLSubResponse (p : option TopSQLSubResponse)
| IResourceUsageRecord (p : option ResourceUsageRecord).

(** The subscription clients and the streams they open, each tied to the
    connection it was built on.  [backoffScrape.client] and
    [backoffScrape.stream] hold them behind [interface{}]. *)
Inductive Client :=
| TopSQLPubSubClient (cc : ConnId)
| ResourceMeteringPubSubClient (cc : ConnId).

Inductive Stream :=
| TopSQLPubSub_SubscribeClient (cc : ConnId)
| ResourceMeteringPubSub_SubscribeClient (cc : ConnId).

Definition stream_conn (st : Stream) : ConnId :=
  match st with
  | TopSQLPubSub_SubscribeClient cc => cc
  | ResourceMeteringPubSub_SubscribeClient cc => cc
  end.

Definition client_conn (cl : Client) : ConnId :=
  match cl with
  | TopSQLPubSubClient cc => cc
  | ResourceMeteringPubSubClient cc => cc
  end.

Module utils.

(** Modelled from the spec: the declaration of [utils.Component] is not
    part of the sources.  The spec gives a target descriptor
    [{kind, address}] with two recognised kinds; the code switches on
    [Kind] with a [default] branch, so the kind type has further values. *)
Inductive ComponentKind :=
| ComponentTiDB
| ComponentTiKV
| ComponentOther (tag : nat).

(** Modelled from the spec: [utils.Component], of which the code reads the
    fields [Kind] and [Addr]. *)
Record Component := { Kind : ComponentKind; Addr : string }.

Section Executor.

Variable St : Type.

(** The cancellation token as the executor sees it: an interruptible
    wait that either lets the timer elapse ([true]) or is cut short by
    the token firing ([false]). *)
Variable ctx : Duration -> nat -> St -> bool * St.

Variable firstWaitTime : Duration.
Variable f : nat -> St -> bool * St.

(** Modelled from the spec: [utils.WithRetryBackoff] is not part of the
    sources.  Section 4.1: call [attempt(0)]; on [true] return [true]
    at once; on [false] wait (interruptibly) and call the next index,
    up to [maxAttempts] attempts in total; a wait cut short by the
    token returns [false]; exhaustion returns [false].  The length of
    a wait (initial wait times a power of the multiplier, capped) is
    left to the context, which receives the initial wait and the index
    of the failed attempt. *)
Fixpoint retry_from (remaining retried : nat) (s : St) : bool * St :=
  match remaining with
  | O => (false, s)
  | S r =>
      let '(ok, s1) := f retried s in
      if ok then (true, s1)
      else match r with
           | O => (false, s1)
           | S _ =>
               let '(elapsed, s2) := ctx firstWaitTime retried s1 in
               if elapsed then retry_from r (S retried) s2
               else (false, s2)
           end
  end.

(** Modelled from the spec: [utils.WithRetryBackoff(ctx, maxRetryTimes,
    firstWaitTime, f)], the loop above started at attempt index 0. *)
Definition WithRetryBackoff (maxRetryTimes : nat) (s : St) : bool * St :=
  retry_from maxRetryTimes 0 s.

(** The scenario "the next [k] attempts fail, every wait between them
    elapses, and the attempt after them succeeds". *)
Fixpoint fails_then_succeeds (k retried : nat) (s : St) : Prop :=
  match k with
  | O => fst (f retried s) = true
  | S k' =>
      fst (f retried s) = false /\
      fst (ctx firstWaitTime retried (snd (f retried s))) = true /\
      fails_then_succeeds k' (S retried)
        (snd (ctx firstWaitTime retried (snd (f retried s))))
  end.

(** The scenario "the next [n] attempts all fail, and the waits between
    them all elapse" (no wait follows the last of them). *)
Fixpoint always_fails (n retried : nat) (s : St) : Prop :=
  match n with
  | O => True
  | S n' =>
      fst (f retried s) = false /\
      match n' with
      | O => True
      | S _ =>
          fst (ctx firstWaitTime retried (snd (f retried s))) = true /\
          always_fails n' (S retried)
            (snd (ctx firstWaitTime retried (snd (f retried s))))
      end
  end.

(** The scenario "the next [k] attempts fail, the waits between them
    elapse, and the wait after the last of them is cut short by the
    cancellation token". *)
Fixpoint cancelled_after (k retried : nat) (s : St) : Prop :=
  match k with
  | O => False
  | S k' =>
      fst (f retried s) = false /\
      match k' with
      | O => fst (ctx firstWaitTime retried (snd (f retried s))) = false
      | S _ =>
          fst (ctx firstWaitTime retried (snd (f retried s))) = true /\
          cancelled_after k' (S retried)
            (snd (ctx firstWaitTime retried (snd (f retried s))))
      end
  end.

End Executor.

Arguments retry_from {St}.
Arguments WithRetryBackoff {St}.
Arguments fails_then_succeeds {St}.
Arguments always_fails {St}.
Arguments cancelled_after {St}.

(** Counting the calls, the way a test does it: the attempt function is
    wrapped so that every invocation bumps a counter kept next to the
    state; the wait leaves the counter alone. *)
Definition counted {St} (f : nat -> St -> bool * St)
    (retried : nat) (cs : nat * St) : bool * (nat * St) :=
  let '(ok, s') := f retried (snd cs) in (ok, (S (fst cs), s')).

Definition counted_ctx {St} (ctx : Duration -> nat -> St -> bool * St)
    (d : Duration) (retried : nat) (cs : nat * St) : bool * (nat * St) :=
  let '(ok, s') := ctx d retried (snd cs) in (ok, (fst cs, s')).

(** Number of calls to [f] made by one run of the executor. *)
Definition calls {St} (ctx : Duration -> nat -> St -> bool * St)
    (maxRetryTimes : nat) (firstWaitTime : Duration)
    (f : nat -> St -> bool * St) (s : St) : nat :=
  fst (snd (WithRetryBackoff (counted_ctx ctx) firstWaitTime (counted f)
              maxRetryTimes (0, s))).

End utils.
Import utils.

(** ** The environment *)

Inductive Event :=
| EvConnClose (c : ConnId)
| EvDial (addr : string) (secure : bool) (res : option ConnId)
| EvSubscribe (cl : Client) (ok : bool)
| EvRecv (st : Stream) (ok : bool)
| EvWait (first : Duration) (retried : nat) (elapsed : bool)
| EvWarn (msg : string) (target : Component)
| EvInfo (msg : string) (records : option nat) (target : Component).

(** What the outside world will answer, call by call, and what has been
    asked of it so far (newest event first).  An exhausted script answers
    with the failure of the call: dial error, subscribe error, read error,
    context cancelled. *)
Record Env := mkEnv {
  dial_script : list bool;
  subscribe_script : list bool;
  recv_script : list (option nat);
  wait_script : list bool;
  since_script : list bool;
  next_conn : ConnId;
  trace : list Event
}.

Definition emit (ev : Event) (e : Env) : Env :=
  mkEnv (dial_script e) (subscribe_script e) (recv_script e) (wait_script e)
        (since_script e) (next_conn e) (ev :: trace e).

(** [conn.Close()]; its error is discarded by both callers. *)
Definition conn_Close (c : ConnId) (e : Env) : Env := emit (EvConnClose c) e.

(** [log.Warn(msg, zap.Stringer("target", component), zap.Error(err))]. *)
Definition log_Warn (msg : string) (target : Component) (e : Env) : Env :=
  emit (EvWarn msg target) e.

(** [dial(ctx, tlsConfig, addr)]: plaintext when [tlsConfig] is nil,
    TLS credentials otherwise; blocks until connected or until the dial
    timeout or the context ends it.  [None] is a non-nil error. *)
Definition dial (tlsConfig : option TLSConfig) (addr : string) (e : Env)
  : option ConnId * Env :=
  let secure := match tlsConfig with None => false | Some _ => true end in
  match dial_script e with
  | true :: rest =>
      let c := next_conn e in
      (Some c,
       mkEnv rest (subscribe_script e) (recv_script e) (wait_script e)
             (since_script e) (S c) (EvDial addr secure (Some c) :: trace e))
  | false :: rest =>
      (None,
       mkEnv rest (subscribe_script e) (recv_script e) (wait_script e)
             (since_script e) (next_conn e) (EvDial addr secure None :: trace e))
  | [] => (None, emit (EvDial addr secure None) e)
  end.

Definition NewTopSQLPubSubClient (cc : ConnId) : Client :=
  TopSQLPubSubClient cc.

Definition NewResourceMeteringPubSubClient (cc : ConnId) : Client :=
  ResourceMeteringPubSubClient cc.

(** [client.Subscribe(ctx, request)]: the stream of the client's own kind
    over the client's connection, or an error ([None]). *)
Definition Subscribe (cl : Client) (e : Env) : option Stream * Env :=
  let st := match cl with
            | TopSQLPubSubClient cc => TopSQLPubSub_SubscribeClient cc
            | ResourceMeteringPubSubClient cc =>
                ResourceMeteringPubSub_SubscribeClient cc
            end in
  match subscribe_script e with
  | true :: rest =>
      (Some st,
       mkEnv (dial_script e) rest (recv_script e) (wait_script e)
             (since_script e) (next_conn e) (EvSubscribe cl true :: trace e))
  | false :: rest =>
      (None,
       mkEnv (dial_script e) rest (recv_script e) (wait_script e)
             (since_script e) (next_conn e) (EvSubscribe cl false :: trace e))
  | [] => (None, emit (EvSubscribe cl false) e)
  end.

(** [ClientStream.RecvMsg]: the next message of the stream, or an error
    (end of stream included). *)
Definition RecvMsg (st : Stream) (e : Env) : option nat * Env :=
  match recv_script e with
  | Some m :: rest =>
      (Some m,
       mkEnv (dial_script e) (subscribe_script e) rest (wait_script e)
             (since_script e) (next_conn e) (EvRecv st true :: trace e))
  | None :: rest =>
      (None,
       mkEnv (dial_script e) (subscribe_script e) rest (wait_script e)
             (since_script e) (next_conn e) (EvRecv st false :: trace e))
  | [] => (None, emit (EvRecv st false) e)
  end.

(** [Recv] of the generated gRPC stubs: a fresh message filled by
    [RecvMsg] and a nil error, or a nil message and the error.  The
    second component is [err != nil]. *)
Definition TopSQL_Recv (cc : ConnId) (e : Env)
  : option TopSQLSubResponse * bool * Env :=
  match RecvMsg (TopSQLPubSub_SubscribeClient cc) e with
  | (Some m, e') => (Some {| sub_response := m |}, false, e')
  | (None, e') => (None, true, e')
  end.

Definition ResourceMetering_Recv (cc : ConnId) (e : Env)
  : option ResourceUsageRecord * bool * Env :=
  match RecvMsg (ResourceMeteringPubSub_SubscribeClient cc) e with
  | (Some m, e') => (Some {| usage_record := m |}, false, e')
  | (None, e') => (None, true, e')
  end.

(** The wait of the retry driver on the environment: the timer elapses or
    the context is cancelled first. *)
Definition env_wait (d : Duration) (retried : nat) (e : Env) : bool * Env :=
  match wait_script e with
  | true :: rest =>
      (true,
       mkEnv (dial_script e) (subscribe_script e) (recv_script e) rest
             (since_script e) (next_conn e) (EvWait d retried true :: trace e))
  | false :: rest =>
      (false,
       mkEnv (dial_script e) (subscribe_script e) (recv_script e) rest
             (since_script e) (next_conn e) (EvWait d retried false :: trace e))
  | [] => (false, emit (EvWait d retried false) e)
  end.

(** [log.Info(msg, ..., zap.Stringer("target", component))], with the record
    count when the call carries one. *)
Definition log_Info (msg : string) (records : option nat) (target : Component)
    (e : Env) : Env :=
  emit (EvInfo msg records target) e.

(** [time.Since(lastLog) > time.Second]: the clock belongs to the world. *)
Definition since_over_a_second (e : Env) : bool * Env :=
  match since_script e with
  | b :: rest =>
      (b,
       mkEnv (dial_script e) (subscribe_script e) (recv_script e)
             (wait_script e) rest (next_conn e) (trace e))
  | [] => (false, e)
  end.

(** ** The reconnecting stream *)

Record backoffScrapeT := mkBackoffScrape {
  tlsCfg : option TLSConfig;
  address : string;
  component : Component;
  conn : option ConnId;
  client : option Client;
  stream : option Stream;
  firstWaitTime : Duration;
  maxRetryTimes : nat
}.

Definition set_conn (v : option ConnId) (b : backoffScrapeT) :=
  mkBackoffScrape (tlsCfg b) (address b) (component b) v (client b) (stream b)
                  (firstWaitTime b) (maxRetryTimes b).

Definition set_client (v : option Client) (b : backoffScrapeT) :=
  mkBackoffScrape (tlsCfg b) (address b) (component b) (conn b) v (stream b)
                  (firstWaitTime b) (maxRetryTimes b).

Definition set_stream (v : option Stream) (b : backoffScrapeT) :=
  mkBackoffScrape (tlsCfg b) (address b) (component b) (conn b) (client b) v
                  (firstWaitTime b) (maxRetryTimes b).

Definition newBackoffScrape (tlsCfg : option TLSConfig) (address : string)
    (component : Component) : backoffScrapeT :=
  mkBackoffScrape tlsCfg address component None None None (2 * Second)%Z 8.

(** What the closure passed to [WithRetryBackoff] can reach: the named
    result [record] of the enclosing call, the receiver and the world. *)
Record Frame := mkFrame {
  record : iface;
  this : backoffScrapeT;
  world : Env
}.

(** The context of the receiver, as the retry driver uses it. *)
Definition bo_ctx (d : Duration) (retried : nat) (fr : Frame) : bool * Frame :=
  let '(elapsed, e) := env_wait d retried (world fr) in
  (elapsed, mkFrame (record fr) (this fr) e).

(** The closure of [backoffScrape]: one reconnect attempt. *)
Definition backoffScrape_attempt (retried : nat) (fr : Frame) : bool * Frame :=
  let '(b, e) :=
    match conn (this fr) with
    | Some c =>
        (set_stream None (set_client None (set_conn None (this fr))),
         conn_Close c (world fr))
    | None => (this fr, world fr)
    end in
  match dial (tlsCfg b) (address b) e with
  | (None, e) =>
      (false,
       mkFrame (record fr) b
         (log_Warn "Failed to dial Top SQL scrape target" (component b) e))
  | (Some cn, e) =>
      let b := set_conn (Some cn) b in
      match Kind (component b) with
      | ComponentTiDB =>
          let cl := NewTopSQLPubSubClient cn in
          let b := set_client (Some cl) b in
          match Subscribe cl e with
          | (None, e) =>
              (false,
               mkFrame (record fr) b
                 (log_Warn "Failed to call Top SQL Subscribe" (component b) e))
          | (Some st, e) =>
              let b := set_stream (Some st) b in
              let '(m, err, e) := TopSQL_Recv (stream_conn st) e in
              if err
              then (false,
                    mkFrame (ITopSQLSubResponse m) b
                      (log_Warn "Failed to call Top SQL Subscribe"
                                (component b) e))
              else (true, mkFrame (ITopSQLSubResponse m) b e)
          end
      | ComponentTiKV =>
          let cl := NewResourceMeteringPubSubClient cn in
          let b := set_client (Some cl) b in
          match Subscribe cl e with
          | (None, e) =>
              (false,
               mkFrame (record fr) b
                 (log_Warn "Failed to call Top SQL Subscribe" (component b) e))
          | (Some st, e) =>
              let b := set_stream (Some st) b in
              let '(m, err, e) := ResourceMetering_Recv (stream_conn st) e in
              if err
              then (false,
                    mkFrame (IResourceUsageRecord m) b
                      (log_Warn "Failed to call Top SQL Subscribe"
                                (component b) e))
              else (true, mkFrame (IResourceUsageRecord m) b e)
          end
      | ComponentOther _ => (true, mkFrame (record fr) b e)
      end
  end.

(** [backoffScrape]: the result of the retry driver is dropped; what is
    returned is whatever the attempts left in [record]. *)
Definition backoffScrape (b : backoffScrapeT) (e : Env)
  : iface * backoffScrapeT * Env :=
  let '(_, fr) :=
    WithRetryBackoff bo_ctx (firstWaitTime b) backoffScrape_attempt
                     (maxRetryTimes b) (mkFrame INil b e) in
  (record fr, this fr, world fr).

Definition scrape (b : backoffScrapeT) (e : Env)
  : iface * backoffScrapeT * Env :=
  match stream b with
  | Some (TopSQLPubSub_SubscribeClient cc) =>
      match TopSQL_Recv cc e with
      | (Some r, _, e') => (ITopSQLSubResponse (Some r), b, e')
      | (None, _, e') => backoffScrape b e'
      end
  | Some (ResourceMeteringPubSub_SubscribeClient cc) =>
      match ResourceMetering_Recv cc e with
      | (Some r, _, e') => (IResourceUsageRecord (Some r), b, e')
      | (None, _, e') => backoffScrape b e'
      end
  | None => backoffScrape b e
  end.

(** The two type assertions on [record], each to the pointer type of one
    message and guarded by [record != nil]. *)
Definition assert_TopSQLSubResponse (v : iface) : option TopSQLSubResponse :=
  match v with
  | INil => None
  | ITopSQLSubResponse res => res
  | IResourceUsageRecord _ => None
  end.

Definition assert_ResourceUsageRecord (v : iface) : option ResourceUsageRecord :=
  match v with
  | INil => None
  | ITopSQLSubResponse _ => None
  | IResourceUsageRecord res => res
  end.

Definition scrapeTiDBRecord (b : backoffScrapeT) (e : Env)
  : option TopSQLSubResponse * backoffScrapeT * Env :=
  let '(v, b', e') := scrape b e in (assert_TopSQLSubResponse v, b', e').

Definition scrapeTiKVRecord (b : backoffScrapeT) (e : Env)
  : option ResourceUsageRecord * backoffScrapeT * Env :=
  let '(v, b', e') := scrape b e in (assert_ResourceUsageRecord v, b', e').

Definition close (b : backoffScrapeT) (e : Env) : backoffScrapeT * Env :=
  match conn b with
  | Some c =>
      (set_stream None (set_client None (set_conn None b)), conn_Close c e)
  | None => (b, e)
  end.

(** ** The scraper *)

(** The context and its cancel function live in the environment; the
    fields that remain are the configuration. *)
Record Scraper := mkScraper {
  tlsConfig : option TLSConfig;
  scraper_component : Component
}.

(** How a call that may loop for ever, or panic, ends. *)
Inductive Outcome :=
| Returned (b : backoffScrapeT) (e : Env)
| Panicked (msg : string) (e : Env)
| OutOfFuel.

(** The [for] loop of [scrapeTiDB]; [fuel] bounds the iterations. *)
Fixpoint drainTiDB (fuel : nat) (target : Component) (lastSuppressed : nat)
    (b : backoffScrapeT) (e : Env) : option (backoffScrapeT * Env) :=
  match fuel with
  | O => None
  | S fuel' =>
      match scrapeTiDBRecord b e with
      | (None, b', e') => Some (b', e')
      | (Some _, b', e') =>
          let lastSuppressed := S lastSuppressed in
          let '(over, e') := since_over_a_second e' in
          if over
          then drainTiDB fuel' target 0 b'
                 (log_Info "Received Top SQL record" (Some lastSuppressed)
                           target e')
          else drainTiDB fuel' target lastSuppressed b' e'
      end
  end.

Fixpoint drainTiKV (fuel : nat) (target : Component) (lastSuppressed : nat)
    (b : backoffScrapeT) (e : Env) : option (backoffScrapeT * Env) :=
  match fuel with
  | O => None
  | S fuel' =>
      match scrapeTiKVRecord b e with
      | (None, b', e') => Some (b', e')
      | (Some _, b', e') =>
          let lastSuppressed := S lastSuppressed in
          let '(over, e') := since_over_a_second e' in
          if over
          then drainTiKV fuel' target 0 b'
                 (log_Info "Received Top SQL record" (Some lastSuppressed)
                           target e')
          else drainTiKV fuel' target lastSuppressed b' e'
      end
  end.

(** [scrapeTiDB]: build the stream, drain it, and run the deferred
    [bo.close()] on the way out. *)
Definition scrapeTiDB (fuel : nat) (s : Scraper) (e : Env) : Outcome :=
  let bo := newBackoffScrape (tlsConfig s) (Addr (scraper_component s))
                             (scraper_component s) in
  match drainTiDB fuel (scraper_component s) 0 bo e with
  | Some (b, e') => let '(b', e'') := close b e' in Returned b' e''
  | None => OutOfFuel
  end.

Definition scrapeTiKV (fuel : nat) (s : Scraper) (e : Env) : Outcome :=
  let bo := newBackoffScrape (tlsConfig s) (Addr (scraper_component s))
                             (scraper_component s) in
  match drainTiKV fuel (scraper_component s) 0 bo e with
  | Some (b, e') => let '(b', e'') := close b e' in Returned b' e''
  | None => OutOfFuel
  end.

Definition Run (fuel : nat) (s : Scraper) (e : Env) : Outcome :=
  let e := log_Info "Starting Top SQL scraping" None (scraper_component s) e in
  match Kind (scraper_component s) with
  | ComponentTiDB => scrapeTiDB fuel s e
  | ComponentTiKV => scrapeTiKV fuel s e
  | ComponentOther _ => Panicked "unexpected scrape target" e
  end.

(** ** Sequences of operations on one reconnecting stream *)

Inductive Op := OpScrape | OpBackoffScrape | OpScrapeTiDBRecord
              | OpScrapeTiKVRecord | OpClose.

Definition run_op (o : Op) (be : backoffScrapeT * Env) : backoffScrapeT * Env :=
  let '(b, e) := be in
  match o with
  | OpScrape => let '(_, b', e') := scrape b e in (b', e')
  | OpBackoffScrape => let '(_, b', e') := backoffScrape b e in (b', e')
  | OpScrapeTiDBRecord => let '(_, b', e') := scrapeTiDBRecord b e in (b', e')
  | OpScrapeTiKVRecord => let '(_, b', e') := scrapeTiKVRecord b e in (b', e')
  | OpClose => close b e
  end.

Definition run_ops (os : list Op) (be : backoffScrapeT * Env)
  : backoffScrapeT * Env :=
  fold_left (fun st o => run_op o st) os be.

(** The connection state as the spec speaks of it. *)
Definition all_present (b : backoffScrapeT) : Prop :=
  conn b <> None /\ client b <> None /\ stream b <> None.

Definition all_absent (b : backoffScrapeT) : Prop :=
  conn b = None /\ client b = None /\ stream b = None.

(** What the code keeps instead: the fields are filled in the order
    connection, client, stream and cleared together, and a client or a
    stream that is held was built on the connection that is held. *)
Definition nested (b : backoffScrapeT) : Prop :=
  (conn b = None -> client b = None) /\
  (client b = None -> stream b = None) /\
  (forall cl, client b = Some cl -> conn b = Some (client_conn cl)) /\
  (forall st, stream b = Some st -> conn b = Some (stream_conn st)).

(** Does a record carry a message?  Not so the nil interface, nor a nil
    pointer behind a dynamic type. *)
Definition carries_message (v : iface) : bool :=
  match v with
  | INil => false
  | ITopSQLSubResponse p => match p with Some _ => true | None => false end
  | IResourceUsageRecord p => match p with Some _ => true | None => false end
  end.

(** Every connection id handed out so far is below [next_conn]. *)
Definition fresh (b : backoffScrapeT) (e : Env) : Prop :=
  forall c, conn b = Some c -> c < next_conn e.

(** The client and the stream held speak the protocol of the target. *)
Definition kinded (b : backoffScrapeT) : Prop :=
  match stream b, Kind (component b) with
  | None, _ => True
  | Some (TopSQLPubSub_SubscribeClient _), ComponentTiDB => True
  | Some (ResourceMeteringPubSub_SubscribeClient _), ComponentTiKV => True
  | Some _, _ => False
  end.

(** Number of reads made on streams over connection [c]. *)
Fixpoint reads_on (c : ConnId) (tr : list Event) : nat :=
  match tr with
  | [] => 0
  | EvRecv st _ :: tr' =>
      (if Nat.eqb (stream_conn st) c then 1 else 0) + reads_on c tr'
  | _ :: tr' => reads_on c tr'
  end.

(** Number of times connection [c] was released. *)
Fixpoint closes_of (c : ConnId) (tr : list Event) : nat :=
  match tr with
  | [] => 0
  | EvConnClose c' :: tr' => (if Nat.eqb c' c then 1 else 0) + closes_of c tr'
  | _ :: tr' => closes_of c tr'
  end.

(** ** Predicates used by the proofs *)

Definition same_config (b b' : backoffScrapeT) : Prop :=
  tlsCfg b' = tlsCfg b /\ address b' = address b /\
  component b' = component b /\ firstWaitTime b' = firstWaitTime b /\
  maxRetryTimes b' = maxRetryTimes b.

(** The reconnect path of [backoffScrape], with the result of the retry
    driver still visible. *)
Definition reconnect (b : backoffScrapeT) (e : Env) : bool * Frame :=
  WithRetryBackoff bo_ctx (firstWaitTime b) backoffScrape_attempt
                   (maxRetryTimes b) (mkFrame INil b e).

(** What holds of the frame before each attempt of a reconnect started at
    [(b, e)], and what holds in addition after an attempt. *)
Definition reconnect_I (b : backoffScrapeT) (e : Env) (fr : Frame) : Prop :=
  same_config b (this fr) /\ nested (this fr) /\
  fresh (this fr) (world fr) /\
  next_conn e <= next_conn (world fr) /\
  (forall c, c < next_conn e ->
     reads_on c (trace (world fr)) = reads_on c (trace e)).

Definition reconnect_J (b : backoffScrapeT) (e : Env) (fr : Frame) : Prop :=
  reconnect_I b e fr /\ kinded (this fr) /\
  (forall c, c < next_conn e -> conn (this fr) <> Some c).

(** What every operation of the stream guarantees of the state it leaves. *)
Definition op_post (b : backoffScrapeT) (e : Env)
    (b' : backoffScrapeT) (e' : Env) : Prop :=
  same_config b b' /\ nested b' /\ fresh b' e' /\
  next_conn e <= next_conn e' /\
  (kinded b -> kinded b') /\
  (forall c, c < next_conn e -> conn b <> Some c ->
     conn b' <> Some c /\ reads_on c (trace e') = reads_on c (trace e)).

(** A record is the nil interface or has the shape of the target's kind. *)
Definition record_kinded (k : ComponentKind) (v : iface) : Prop :=
  match v, k with
  | INil, _ => True
  | ITopSQLSubResponse _, ComponentTiDB => True
  | IResourceUsageRecord _, ComponentTiKV => True
  | _, _ => False
  end.

(** The trace [tr'] left by an attempt started at [(b, e)] begins with the
    release of the connection held (if any), then the dial; a successful
    dial yields the next fresh connection, on which the subscribe call of
    the target's kind follows at once. *)
Definition tears_down_then_dials (b : backoffScrapeT) (e : Env)
    (tr' : list Event) : Prop :=
  exists later res,
    tr' = (later
          ++ EvDial (address b)
                    (match tlsCfg b with None => false | Some _ => true end) res
          :: trace (snd (close b e)))%list /\
    match res with
    | None => True
    | Some cn =>
        cn = next_conn e /\
        match Kind (component b) with
        | ComponentTiDB =>
            exists later' ok,
              later = (later' ++ [EvSubscribe (TopSQLPubSubClient cn) ok])%list
        | ComponentTiKV =>
            exists later' ok,
              later = (later' ++ [EvSubscribe (ResourceMeteringPubSubClient cn) ok])%list
        | ComponentOther _ => later = []
        end
    end.

(** The trace only grows: [new] is [old] with later events in front. *)
Definition extends (old new : list Event) : Prop :=
  exists later, new = (later ++ old)%list.

(** ** Sample targets and worlds *)

Definition tidb_target : Component :=
  {| Kind := ComponentTiDB; Addr := "tidb:10080" |}.
Definition tikv_target : Component :=
  {| Kind := ComponentTiKV; Addr := "tikv:20180" |}.
Definition other_target : Component :=
  {| Kind := ComponentOther 0; Addr := "pd:2379" |}.

Definition tidb_bo : backoffScrapeT :=
  newBackoffScrape None "tidb:10080" tidb_target.
Definition tikv_bo : backoffScrapeT :=
  newBackoffScrape None "tikv:20180" tikv_target.
Definition other_bo : backoffScrapeT :=
  newBackoffScrape None "pd:2379" other_target.

(** Every dial succeeds, every subscribe fails, no wait is cancelled. *)
Definition env_subscribe_fails : Env :=
  mkEnv (repeat true 8) [] [] (repeat true 7) [] 0 [].

(** Nothing can be dialled; the timer always elapses. *)
Definition env_unreachable : Env :=
  mkEnv [] [] [] (repeat true 7) [] 0 [].

(** Three dials fail, the fourth connects and the stream delivers. *)
Definition env_fourth_succeeds : Env :=
  mkEnv [false; false; false; true] [true] [Some 7] [true; true; true] [] 0 [].

(** Two dials fail and the context is cancelled during the second wait. *)
Definition env_cancelled : Env :=
  mkEnv [false; false; true] [true] [Some 7] [true; false] [] 0 [].

(** A stream that delivers one record, then breaks; the reconnect works. *)
Definition env_breaks : Env :=
  mkEnv [true; true] [true; true] [Some 1; None; Some 2] [] [] 0 [].

(** A world that only answers the first dial. *)
Definition env_dial_ok : Env :=
  mkEnv [true] [] [] [] [] 0 [].

(** A world in which the first subscription delivers one message. *)
Definition env_one_record : Env :=
  mkEnv [true] [true] [Some 5] [] [] 0 [].

(** ** Observers of a run *)

(** Events of a trace that satisfy a test, counted. *)
Definition count (p : Event -> bool) (tr : list Event) : nat :=
  List.length (filter p tr).

Definition is_dial (ev : Event) : bool :=
  match ev with EvDial _ _ _ => true | _ => false end.

Definition is_dial_ok (ev : Event) : bool :=
  match ev with EvDial _ _ (Some _) => true | _ => false end.

(** The successful dial that handed out connection [c]. *)
Definition is_open (c : ConnId) (ev : Event) : bool :=
  match ev with EvDial _ _ (Some c') => Nat.eqb c' c | _ => false end.

Definition is_subscribe (ev : Event) : bool :=
  match ev with EvSubscribe _ _ => true | _ => false end.

Definition is_subscribe_ok (ev : Event) : bool :=
  match ev with EvSubscribe _ true => true | _ => false end.

Definition is_recv (ev : Event) : bool :=
  match ev with EvRecv _ _ => true | _ => false end.

Definition is_recv_ok (ev : Event) : bool :=
  match ev with EvRecv _ true => true | _ => false end.

Definition is_wait (ev : Event) : bool :=
  match ev with EvWait _ _ _ => true | _ => false end.

Definition is_warn (ev : Event) : bool :=
  match ev with EvWarn _ _ => true | _ => false end.

(** Is connection [c] the one held?  As a number, for bookkeeping. *)
Definition live (b : backoffScrapeT) (c : ConnId) : nat :=
  match conn b with
  | Some c' => if Nat.eqb c' c then 1 else 0
  | None => 0
  end.

(** Was connection [c] handed out between the worlds [e] and [e']? *)
Definition created (e e' : Env) (c : ConnId) : bool :=
  Nat.leb (next_conn e) c && Nat.ltb c (next_conn e').

(** The messages among the answers of the wire, in order. *)
Fixpoint delivered (answers : list (option nat)) : list nat :=
  match answers with
  | [] => []
  | Some m :: rest => m :: delivered rest
  | None :: rest => delivered rest
  end.

(** The message a record carries, if any. *)
Definition payload (v : iface) : list nat :=
  match v with
  | ITopSQLSubResponse (Some r) => [sub_response r]
  | IResourceUsageRecord (Some r) => [usage_record r]
  | _ => []
  end.

(** The kinds for which the attempt function has a branch of its own. *)
Definition recognised (k : ComponentKind) : bool :=
  match k with
  | ComponentTiDB | ComponentTiKV => true
  | ComponentOther _ => false
  end.

Definition secure_of (tls : option TLSConfig) : bool :=
  match tls with None => false | Some _ => true end.

(** What a reconnecting stream built with the configuration of [b] may
    ask of the world: dials to its own address in its own TLS mode,
    subscriptions and reads in the protocol of its target, waits of its
    own first wait time, warnings about its own target; no info line. *)
Definition allowed (b : backoffScrapeT) (ev : Event) : Prop :=
  match ev with
  | EvConnClose _ => True
  | EvDial addr secure _ => addr = address b /\ secure = secure_of (tlsCfg b)
  | EvSubscribe (TopSQLPubSubClient _) _ =>
      Kind (component b) = ComponentTiDB
  | EvSubscribe (ResourceMeteringPubSubClient _) _ =>
      Kind (component b) = ComponentTiKV
  | EvRecv (TopSQLPubSub_SubscribeClient _) _ =>
      Kind (component b) = ComponentTiDB
  | EvRecv (ResourceMeteringPubSub_SubscribeClient _) _ =>
      Kind (component b) = ComponentTiKV
  | EvWait d _ _ => d = firstWaitTime b
  | EvWarn _ target => target = component b
  | EvInfo _ _ _ => False
  end.

(** The same for a drain loop over [b], which also logs about its
    target, and for a whole scraper. *)
Definition allowed_loop (b : backoffScrapeT) (ev : Event) : Prop :=
  match ev with
  | EvInfo _ _ target => target = component b
  | _ => allowed b ev
  end.

Definition allowed_run (s : Scraper) (ev : Event) : Prop :=
  allowed_loop (newBackoffScrape (tlsConfig s) (Addr (scraper_component s))
                                 (scraper_component s)) ev.

(** What one or several calls did to the world: [later] are the events
    they added, [consumed] the answers of the wire they used up.  Every
    successful read used up one message; a connection is released as
    often as it was opened, up to the one held before and the one held
    after; and the connections opened are the fresh ones. *)
Definition effects (b : backoffScrapeT) (e : Env) (later : list Event)
    (consumed : list (option nat)) (b' : backoffScrapeT) (e' : Env) : Prop :=
  trace e' = (later ++ trace e)%list /\
  recv_script e = (consumed ++ recv_script e')%list /\
  next_conn e <= next_conn e' /\
  count is_recv_ok later = List.length (delivered consumed) /\
  (forall c, closes_of c later + live b' c
             = count (is_open c) later + live b c) /\
  (forall c, count (is_open c) later = if created e e' c then 1 else 0).

(** The state from which the operations keep their promises. *)
Definition good (b : backoffScrapeT) (e : Env) : Prop :=
  nested b /\ fresh b e /\ kinded b.

(** [k] calls of [scrape] in a row, with what each returned. *)
Fixpoint scrapes (k : nat) (b : backoffScrapeT) (e : Env)
  : list iface * backoffScrapeT * Env :=
  match k with
  | O => ([], b, e)
  | S k' =>
      let '(v, b1, e1) := scrape b e in
      let '(vs, b2, e2) := scrapes k' b1 e1 in
      (v :: vs, b2, e2)
  end.

(** Records reported by the throughput log lines of a trace. *)
Fixpoint logged (tr : list Event) : nat :=
  match tr with
  | [] => 0
  | EvInfo _ (Some n) _ :: tr' => n + logged tr'
  | _ :: tr' => logged tr'
  end.

(** No throughput log line reports zero records. *)
Definition reports_some (ev : Event) : Prop :=
  match ev with
  | EvInfo _ (Some n) _ => 1 <= n
  | _ => True
  end.

(** The context of the scraper has been cancelled: from now on every
    dial, subscribe and read bound to it fails and every wait on it is
    cut short. *)
Definition ctx_cancelled (e : Env) : Prop :=
  Forall (fun a => a = false) (dial_script e) /\
  Forall (fun a => a = false) (subscribe_script e) /\
  Forall (fun m => m = None) (recv_script e) /\
  Forall (fun a => a = false) (wait_script e).

(** What one reconnect attempt asks of the world, event by event: one
    dial; the subscribe call when the dial succeeded and the kind is
    recognised; one read when the subscribe call succeeded; no wait; one
    warning when it fails and none when it succeeds. *)
Definition anatomy (k : ComponentKind) (ok : bool) (later : list Event)
    (consumed : list (option nat)) : Prop :=
  count is_dial later = 1 /\
  count is_subscribe later
  = (if recognised k then count is_dial_ok later else 0) /\
  count is_recv later = count is_subscribe_ok later /\
  List.length consumed <= count is_recv later /\
  count is_wait later = 0 /\
  count is_warn later = (if ok then 0 else 1) /\
  (ok = true <->
   count is_dial_ok later = 1 /\
   (recognised k = true -> count is_recv_ok later = 1)).

(** What has happened since a reconnect started at [(b, e)], as seen
    from the frame of its attempts. *)
Definition reconnect_acc (b : backoffScrapeT) (e : Env) (fr : Frame) : Prop :=
  exists later consumed,
    effects b e later consumed (this fr) (world fr) /\
    Forall (allowed b) later /\
    same_config b (this fr) /\
    payload (record fr) = delivered consumed /\
    (record fr = INil <-> count is_recv later = 0).

(** The messages carried by a list of records, in order. *)
Definition messages (vs : list iface) : list nat :=
  List.concat (map payload vs).

(** What the drain loop promises of a call that returns. *)
Definition drained (n : nat) (b : backoffScrapeT) (e : Env)
    (b' : backoffScrapeT) (e' : Env) : Prop :=
  exists later consumed,
    effects b e later consumed b' e' /\
    Forall (allowed_loop b) later /\
    Forall reports_some later /\
    logged later <= n + count is_recv_ok later /\
    good b' e' /\ same_config b b'.

(** An event that concerns the endpoint: dials go to [addr] in the TLS
    mode given by [tls], waits last [first] at first, log lines name
    [comp]. *)
Definition configured (tls : option TLSConfig) (addr : string)
    (comp : Component) (first : Duration) (ev : Event) : Prop :=
  match ev with
  | EvDial a sec _ => a = addr /\ sec = secure_of tls
  | EvWait d _ _ => d = first
  | EvWarn _ target => target = comp
  | EvInfo _ _ target => target = comp
  | _ => True
  end.

(** An event that concerns the protocol: subscriptions and reads happen
    only in the protocol of kind [k]. *)
Definition speaks (k : ComponentKind) (ev : Event) : Prop :=
  match ev with
  | EvSubscribe (TopSQLPubSubClient _) _ => k = ComponentTiDB
  | EvSubscribe (ResourceMeteringPubSubClient _) _ => k = ComponentTiKV
  | EvRecv (TopSQLPubSub_SubscribeClient _) _ => k = ComponentTiDB
  | EvRecv (ResourceMeteringPubSub_SubscribeClient _) _ => k = ComponentTiKV
  | _ => True
  end.

(** A world in which the wire delivers two records around a broken
    stream, seen by a scraper whose clock passes a second each time. *)
Definition env_two_records : Env :=
  mkEnv [true; true] [true; true] [Some 1; None; Some 2] [] [true; true] 0 [].

(** A world whose context is already cancelled. *)
Definition env_done : Env :=
  mkEnv [false] [] [] [false; false] [] 3 [].

(** ** The scraper's context *)

(** Go contexts, as far as [NewScraper], [IsDown] and [Close] use them: a
    store of cancellable contexts, newest first, each with its parent
    ([None] for a context that is never done, such as the background
    context) and the flag its cancel function sets.  The identity of a
    context is its position counted from the oldest. *)
Definition CtxId := nat.

Record CtxNode := mkCtxNode {
  ctx_parent : option CtxId;
  ctx_flag : bool
}.

Definition CtxStore := list CtxNode.

(** [<-ctx.Done()] would not block: the context was cancelled, or one of
    its ancestors was. *)
Fixpoint ctx_done (st : CtxStore) (c : CtxId) : bool :=
  match st with
  | [] => false
  | node :: rest =>
      if Nat.eqb c (List.length rest)
      then ctx_flag node
           || match ctx_parent node with
              | Some p => ctx_done rest p
              | None => false
              end
      else ctx_done rest c
  end.

(** [context.WithCancel(parent)]: a fresh child context; the cancel
    function returned with it is [ctx_cancel] at the child's identity. *)
Definition WithCancel (parent : option CtxId) (st : CtxStore)
  : CtxId * CtxStore :=
  (List.length st, mkCtxNode parent false :: st).

Fixpoint ctx_cancel (st : CtxStore) (c : CtxId) : CtxStore :=
  match st with
  | [] => []
  | node :: rest =>
      if Nat.eqb c (List.length rest)
      then mkCtxNode (ctx_parent node) true :: rest
      else node :: ctx_cancel rest c
  end.

(** [NewScraper(ctx, component, tlsConfig)]: the configuration, and the
    context derived from [ctx] whose cancel function the scraper keeps. *)
Definition NewScraper (ctx : option CtxId) (component : Component)
    (tlsConfig : option TLSConfig) (st : CtxStore)
  : Scraper * CtxId * CtxStore :=
  let '(c, st') := WithCancel ctx st in
  (mkScraper tlsConfig component, c, st').

(** [IsDown]: the non-blocking [select] on [s.ctx.Done()]. *)
Definition IsDown (ctx : CtxId) (st : CtxStore) : bool := ctx_done st ctx.

(** [Close]: [s.cancel()]. *)
Definition Close (ctx : CtxId) (st : CtxStore) : CtxStore := ctx_cancel st ctx.

(** A store with one cancellable context derived from the background. *)
Definition store_one : CtxStore := [mkCtxNode None false].

(** * Properties *)

(** ** The retry driver *)

Lemma retry_from_one {St} (ctx : Duration -> nat -> St -> bool * St) first f i s :
  retry_from ctx first f 1 i s
  = let '(ok, s1) := f i s in if ok then (true, s1) else (false, s1).
Proof. reflexivity. Qed.

Lemma retry_from_more {St} (ctx : Duration -> nat -> St -> bool * St) first f n i s :
  retry_from ctx first f (S (S n)) i s
  = let '(ok, s1) := f i s in
    if ok then (true, s1)
    else let '(elapsed, s2) := ctx first i s1 in
         if elapsed then retry_from ctx first f (S n) (S i) s2
         else (false, s2).
Proof. reflexivity. Qed.

Section ExecutorFacts.

Context {St : Type}.
Variable ctx : Duration -> nat -> St -> bool * St.
Variable first : Duration.
Variable f : nat -> St -> bool * St.

(** A Hoare-style rule for the loop: [P] holds before each attempt,
    [Rt] after a successful attempt, [Rf] after a failed one and after
    the wait that follows it. *)
Lemma retry_from_rule (P Rt Rf : St -> Prop) :
  (forall i s, P s -> if fst (f i s) then Rt (snd (f i s)) else Rf (snd (f i s))) ->
  (forall i s, Rf s -> Rf (snd (ctx first i s)) /\ P (snd (ctx first i s))) ->
  forall n i s, P s ->
    if fst (retry_from ctx first f (S n) i s)
    then Rt (snd (retry_from ctx first f (S n) i s))
    else Rf (snd (retry_from ctx first f (S n) i s)).
Proof.
  intros Hf Hw n; induction n as [|n IH]; intros i s HP.
  - specialize (Hf i s HP). cbn [retry_from].
    destruct (f i s) as [[|] s1]; cbn in *; assumption.
  - specialize (Hf i s HP).
    rewrite retry_from_more.
    destruct (f i s) as [[|] s1]; cbn [fst snd] in *; [assumption|].
    destruct (Hw i s1 Hf) as [Hr Hp].
    destruct (ctx first i s1) as [[|] s2]; cbn [fst snd] in *.
    + apply IH; assumption.
    + assumption.
Qed.

(** The same rule when nothing separates the three predicates. *)
Lemma retry_from_invariant (P : St -> Prop) :
  (forall i s, P s -> P (snd (f i s))) ->
  (forall i s, P s -> P (snd (ctx first i s))) ->
  forall n i s, P s -> P (snd (retry_from ctx first f n i s)).
Proof.
  intros Hf Hw [|n] i s HP; [exact HP|].
  pose proof (retry_from_rule P P P) as R.
  assert (H : if fst (retry_from ctx first f (S n) i s)
              then P (snd (retry_from ctx first f (S n) i s))
              else P (snd (retry_from ctx first f (S n) i s))).
  { apply R; auto.
    intros j t Ht. specialize (Hf j t Ht). destruct (fst (f j t)); exact Hf. }
  destruct (fst (retry_from ctx first f (S n) i s)); exact H.
Qed.

(** Counting does not change what the driver does. *)
Lemma retry_from_counted n :
  forall i c s,
    fst (retry_from (counted_ctx ctx) first (counted f) n i (c, s))
      = fst (retry_from ctx first f n i s) /\
    snd (snd (retry_from (counted_ctx ctx) first (counted f) n i (c, s)))
      = snd (retry_from ctx first f n i s).
Proof.
  induction n as [|n IH]; intros i c s; [split; reflexivity|].
  destruct n as [|n'].
  - rewrite !retry_from_one. unfold counted. cbn [fst snd].
    destruct (f i s) as [[|] s1]; split; reflexivity.
  - rewrite !retry_from_more. unfold counted at 1 3. cbn [fst snd].
    destruct (f i s) as [[|] s1]; [split; reflexivity|].
    unfold counted_ctx at 1 3. cbn [fst snd].
    destruct (ctx first i s1) as [[|] s2]; [apply IH|split; reflexivity].
Qed.

Lemma retry_from_succeeds k :
  forall n i c s, k < n -> fails_then_succeeds ctx first f k i s ->
    fst (retry_from ctx first f n i s) = true /\
    fst (snd (retry_from (counted_ctx ctx) first (counted f) n i (c, s)))
      = c + k + 1.
Proof.
  induction k as [|k IH]; intros n i c s Hlt H.
  - destruct n as [|n]; [lia|]. cbn in H.
    cbn [retry_from]. unfold counted at 1. cbn [fst snd].
    destruct (f i s) as [ok s1]; cbn in H; subst ok. cbn. split; [reflexivity|lia].
  - destruct n as [|[|n]]; [lia|lia|].
    destruct H as (Hf & Hw & Hrest).
    rewrite !retry_from_more. unfold counted at 1. cbn [fst snd].
    destruct (f i s) as [ok s1]; cbn [fst snd] in *; subst ok.
    unfold counted_ctx at 1. cbn [fst snd].
    destruct (ctx first i s1) as [el s2]; cbn [fst snd] in *; subst el.
    destruct (IH (S n) (S i) (S c) s2 ltac:(lia) Hrest) as [H1 H2].
    split; [exact H1|]. rewrite H2. lia.
Qed.

Lemma retry_from_exhausts n :
  forall i c s, always_fails ctx first f n i s ->
    fst (retry_from ctx first f n i s) = false /\
    fst (snd (retry_from (counted_ctx ctx) first (counted f) n i (c, s)))
      = c + n.
Proof.
  induction n as [|n IH]; intros i c s H.
  - cbn. split; [reflexivity|lia].
  - destruct H as [Hf Hrest].
    destruct n as [|n].
    { rewrite !retry_from_one. unfold counted. cbn [fst snd].
      destruct (f i s) as [ok s1]; cbn [fst snd] in *; subst ok.
      cbn. split; [reflexivity|lia]. }
    rewrite !retry_from_more. unfold counted at 1. cbn [fst snd].
    destruct (f i s) as [ok s1]; cbn [fst snd] in *; subst ok.
    destruct Hrest as [Hw Hrest].
    unfold counted_ctx at 1. cbn [fst snd].
    destruct (ctx first i s1) as [el s2]; cbn [fst snd] in *; subst el.
    destruct (IH (S i) (S c) s2 Hrest) as [H1 H2].
    split; [exact H1|]. rewrite H2. lia.
Qed.

Lemma retry_from_cancelled k :
  forall n i c s, k < n -> cancelled_after ctx first f k i s ->
    fst (retry_from ctx first f n i s) = false /\
    fst (snd (retry_from (counted_ctx ctx) first (counted f) n i (c, s)))
      = c + k.
Proof.
  induction k as [|k IH]; intros n i c s Hlt H; [destruct H|].
  destruct n as [|[|n]]; [lia|lia|].
  destruct H as [Hf Hrest].
  rewrite !retry_from_more. unfold counted at 1. cbn [fst snd].
  destruct (f i s) as [ok s1]; cbn [fst snd] in *; subst ok.
  unfold counted_ctx at 1. cbn [fst snd].
  destruct k as [|k].
  - destruct (ctx first i s1) as [el s2]; cbn [fst snd] in *; subst el.
    cbn. split; [reflexivity|lia].
  - destruct Hrest as [Hw Hrest].
    destruct (ctx first i s1) as [el s2]; cbn [fst snd] in *; subst el.
    destruct (IH (S n) (S i) (S c) s2 ltac:(lia) Hrest) as [H1 H2].
    split; [exact H1|]. rewrite H2. lia.
Qed.

End ExecutorFacts.

(** C3. When fewer than [maxRetryTimes] attempts fail (the waits between
    them elapsing) and the next one succeeds, the driver returns [true]
    and has called the attempt function (number of failures + 1) times;
    when the attempt of index 0 succeeds the driver's result is that
    attempt's own result and state: no wait took place. *)
Theorem WithRetryBackoff_succeeds_after_failures :
  forall (St : Type) (ctx : Duration -> nat -> St -> bool * St) first f
         maxRetryTimes k s,
    k < maxRetryTimes ->
    fails_then_succeeds ctx first f k 0 s ->
    fst (WithRetryBackoff ctx first f maxRetryTimes s) = true /\
    calls ctx maxRetryTimes first f s = k + 1 /\
    (k = 0 -> WithRetryBackoff ctx first f maxRetryTimes s = f 0 s).
Proof.
  intros St ctx first f n k s Hlt H.
  destruct (retry_from_succeeds ctx first f k n 0 0 s Hlt H) as [H1 H2].
  split; [exact H1|]. split; [exact H2|].
  intros ->. cbn in H. unfold WithRetryBackoff.
  destruct n as [|n]; [lia|]. cbn [retry_from].
  destruct (f 0 s) as [ok s1]. cbn in H. subst ok. reflexivity.
Qed.

(** C6. When the cancellation token fires during the wait that follows
    the [k]-th failed attempt, the driver returns [false] and the attempt
    function has been called [k] times: it is not invoked again. *)
Theorem WithRetryBackoff_cancelled_during_wait :
  forall (St : Type) (ctx : Duration -> nat -> St -> bool * St) first f
         maxRetryTimes k s,
    k < maxRetryTimes ->
    cancelled_after ctx first f k 0 s ->
    fst (WithRetryBackoff ctx first f maxRetryTimes s) = false /\
    calls ctx maxRetryTimes first f s = k.
Proof.
  intros St ctx first f n k s Hlt H.
  exact (retry_from_cancelled ctx first f k n 0 0 s Hlt H).
Qed.

(** ** One reconnect attempt *)


Ltac open_frame fr :=
  let r := fresh "r" in let b := fresh "b" in let e := fresh "e" in
  destruct fr as [r b e];
  destruct b as [tl ad [kd adr] co cl sm fw mx];
  destruct e as [ds ss rs ws cs nc tr].

Ltac attempt_cases :=
  unfold backoffScrape_attempt, dial, Subscribe, TopSQL_Recv,
    ResourceMetering_Recv, RecvMsg, conn_Close, log_Warn, emit,
    NewTopSQLPubSubClient, NewResourceMeteringPubSubClient,
    set_stream, set_client, set_conn;
  cbn [this world record conn client stream tlsCfg address component
       firstWaitTime maxRetryTimes dial_script subscribe_script recv_script
       wait_script since_script next_conn trace Kind Addr fst snd stream_conn];
  repeat match goal with
    | |- context [match ?x with _ => _ end] =>
        first [ is_var x; destruct x
              | match x with Some _ => fail 1 | None => fail 1 | _ :: _ => fail 1 | [] => fail 1 end ];
        cbn [this world record conn client stream tlsCfg address component
             firstWaitTime maxRetryTimes dial_script subscribe_script
             recv_script wait_script since_script next_conn trace Kind Addr
             fst snd stream_conn]
    end.

Lemma reads_on_skip c st ok tr :
  stream_conn st <> c -> reads_on c (EvRecv st ok :: tr) = reads_on c tr.
Proof.
  intros H. cbn [reads_on]. destruct (Nat.eqb_spec (stream_conn st) c); [contradiction|reflexivity].
Qed.

Ltac solve_inv :=
  unfold same_config, nested, fresh, kinded, all_present, all_absent in *;
  cbn [this world record conn client stream tlsCfg address component
       firstWaitTime maxRetryTimes dial_script subscribe_script recv_script
       wait_script since_script next_conn trace Kind Addr fst snd] in *;
  repeat match goal with
    | H : _ /\ _ |- _ => destruct H
    | H : ?a = ?a -> _ |- _ => specialize (H eq_refl)
    | H : ?x = None |- _ => is_var x; subst x
    end;
  repeat match goal with
    | |- _ /\ _ => split
    | |- _ <> _ => intro
    | |- forall _, _ => intro
    | H : Some _ = Some _ |- _ => inversion H; subst; clear H
    | H : _ /\ _ |- _ => destruct H
    end;
  cbn [reads_on closes_of stream_conn client_conn carries_message] in *;
  repeat match goal with
    | |- context [Nat.eqb ?a ?b] => destruct (Nat.eqb_spec a b)
    end;
  try congruence; try lia; auto.

Lemma attempt_spec i fr :
  nested (this fr) -> fresh (this fr) (world fr) ->
  let fr' := snd (backoffScrape_attempt i fr) in
  same_config (this fr) (this fr') /\
  nested (this fr') /\ fresh (this fr') (world fr') /\ kinded (this fr') /\
  next_conn (world fr) <= next_conn (world fr') /\
  (forall c, c < next_conn (world fr) ->
     conn (this fr') <> Some c /\
     reads_on c (trace (world fr')) = reads_on c (trace (world fr))).
Proof.
  open_frame fr. cbn [this world].
  intros Hn Hf.
  attempt_cases; solve_inv.
Qed.

Lemma attempt_record i fr :
  carries_message (record fr) = false ->
  if fst (backoffScrape_attempt i fr)
  then carries_message (record (snd (backoffScrape_attempt i fr))) = true ->
       all_present (this (snd (backoffScrape_attempt i fr)))
  else carries_message (record (snd (backoffScrape_attempt i fr))) = false.
Proof.
  open_frame fr. cbn [record]. intros Hr.
  attempt_cases; solve_inv.
Qed.

Lemma bo_ctx_spec d i fr :
  record (snd (bo_ctx d i fr)) = record fr /\
  this (snd (bo_ctx d i fr)) = this fr /\
  next_conn (world (snd (bo_ctx d i fr))) = next_conn (world fr) /\
  (forall c, reads_on c (trace (world (snd (bo_ctx d i fr))))
             = reads_on c (trace (world fr))).
Proof.
  open_frame fr. unfold bo_ctx, env_wait, emit.
  cbn [this world record wait_script].
  destruct ws as [|[] ws']; cbn; auto.
Qed.

(** ** The reconnect path as a whole *)


Lemma backoffScrape_reconnect b e :
  backoffScrape b e
  = (record (snd (reconnect b e)), this (snd (reconnect b e)),
     world (snd (reconnect b e))).
Proof.
  unfold backoffScrape, reconnect.
  destruct (WithRetryBackoff _ _ _ _ _) as [ok fr]. reflexivity.
Qed.

Section Reconnect.

Variables (b : backoffScrapeT) (e : Env).

Lemma attempt_I_J i fr : reconnect_I b e fr -> reconnect_J b e (snd (backoffScrape_attempt i fr)).
Proof.
  intros (Hc & Hn & Hf & Hle & Hr).
  destruct (attempt_spec i fr Hn Hf) as (Hc' & Hn' & Hf' & Hk' & Hle' & Hs').
  assert (Hcfg : same_config b (this (snd (backoffScrape_attempt i fr)))).
  { unfold same_config in *. intuition congruence. }
  unfold reconnect_J, reconnect_I. repeat match goal with |- _ /\ _ => split end;
    try assumption.
  - lia.
  - intros c Hlt. rewrite <- (Hr c Hlt). apply Hs'. lia.
  - intros c Hlt. apply Hs'. lia.
Qed.

Lemma wait_J d i fr : reconnect_J b e fr -> reconnect_J b e (snd (bo_ctx d i fr)).
Proof.
  intros ((Hc & Hn & Hf & Hle & Hr) & Hk & Hs).
  destruct (bo_ctx_spec d i fr) as (_ & Ht & Hnx & Hrd).
  unfold reconnect_J, reconnect_I, fresh in *. rewrite Ht, Hnx.
  repeat match goal with |- _ /\ _ => split end; try assumption.
  intros c Hlt. rewrite Hrd. apply Hr, Hlt.
Qed.

Lemma reconnect_spec :
  nested b -> fresh b e ->
  let fr := snd (reconnect b e) in
  same_config b (this fr) /\ nested (this fr) /\
  fresh (this fr) (world fr) /\
  next_conn e <= next_conn (world fr) /\
  (forall c, c < next_conn e ->
     reads_on c (trace (world fr)) = reads_on c (trace e)) /\
  (kinded b -> kinded (this fr)) /\
  (forall c, c < next_conn e ->
     0 < maxRetryTimes b \/ conn b <> Some c -> conn (this fr) <> Some c) /\
  (carries_message (record fr) = true -> all_present (this fr)) /\
  (fst (reconnect b e) = false -> carries_message (record fr) = false).
Proof.
  intros Hn Hf. unfold reconnect, WithRetryBackoff.
  destruct (maxRetryTimes b) as [|n] eqn:Hmx.
  - cbn. unfold same_config.
    repeat match goal with |- _ /\ _ => split end;
      auto; try (intros; discriminate).
    intros c _ [H|H]; [lia|exact H].
  - pose proof (retry_from_rule bo_ctx (firstWaitTime b) backoffScrape_attempt
      (fun fr => reconnect_I b e fr /\ carries_message (record fr) = false)
      (fun fr => reconnect_J b e fr /\
         (carries_message (record fr) = true -> all_present (this fr)))
      (fun fr => reconnect_J b e fr /\ carries_message (record fr) = false)) as R.
    cbv zeta.
    set (run := retry_from bo_ctx (firstWaitTime b) backoffScrape_attempt
                  (S n) 0 (mkFrame INil b e)) in *.
    assert (H : if fst run
                then reconnect_J b e (snd run) /\
                     (carries_message (record (snd run)) = true ->
                      all_present (this (snd run)))
                else reconnect_J b e (snd run) /\
                     carries_message (record (snd run)) = false).
    { apply R.
      - intros i fr [HI Hr]. pose proof (attempt_I_J i fr HI) as HJ.
        pose proof (attempt_record i fr Hr) as Hrec.
        destruct (fst (backoffScrape_attempt i fr)); split; assumption.
      - intros i fr [HJ Hr].
        pose proof (wait_J (firstWaitTime b) i fr HJ) as HJ'.
        destruct (bo_ctx_spec (firstWaitTime b) i fr) as (Hrec & _).
        cbv beta. rewrite Hrec. split; split; try assumption. apply HJ'.
      - cbn. unfold reconnect_I, same_config. cbn.
        repeat match goal with |- _ /\ _ => split end; auto. }
    destruct (fst run);
      destruct H as (((Hc & Hn' & Hf' & Hle & Hr) & Hk & Hs) & Hm);
      repeat match goal with |- _ /\ _ => split end;
      try assumption; auto; try (intros; discriminate).
    intros E. rewrite Hm in E. discriminate.
Qed.

End Reconnect.

(** ** The operations of the reconnecting stream *)


Lemma same_config_refl b : same_config b b.
Proof. unfold same_config. auto. Qed.

Lemma backoffScrape_spec b e :
  nested b -> fresh b e ->
  op_post b e (snd (fst (backoffScrape b e))) (snd (backoffScrape b e)) /\
  (carries_message (fst (fst (backoffScrape b e))) = true ->
   all_present (snd (fst (backoffScrape b e)))).
Proof.
  intros Hn Hf. rewrite backoffScrape_reconnect. cbn [fst snd].
  destruct (reconnect_spec b e Hn Hf)
    as (Hc & Hn' & Hf' & Hle & Hr & Hk & Hs & Hm & _).
  unfold op_post. repeat match goal with |- _ /\ _ => split end; auto.
Qed.

Lemma RecvMsg_spec st e :
  dial_script (snd (RecvMsg st e)) = dial_script e /\
  next_conn (snd (RecvMsg st e)) = next_conn e /\
  exists ok, trace (snd (RecvMsg st e)) = EvRecv st ok :: trace e.
Proof.
  unfold RecvMsg, emit. destruct (recv_script e) as [|[m|] rest]; cbn; eauto.
Qed.

Lemma scrape_unfold b e :
  scrape b e =
  match stream b with
  | Some st =>
      match RecvMsg st e with
      | (Some m, e') =>
          (match st with
           | TopSQLPubSub_SubscribeClient _ =>
               ITopSQLSubResponse (Some {| sub_response := m |})
           | ResourceMeteringPubSub_SubscribeClient _ =>
               IResourceUsageRecord (Some {| usage_record := m |})
           end, b, e')
      | (None, e') => backoffScrape b e'
      end
  | None => backoffScrape b e
  end.
Proof.
  unfold scrape, TopSQL_Recv, ResourceMetering_Recv.
  destruct (stream b) as [[cc|cc]|]; [| |reflexivity];
    destruct (RecvMsg _ e) as [[m|] e']; reflexivity.
Qed.

Lemma scrape_spec b e :
  nested b -> fresh b e ->
  op_post b e (snd (fst (scrape b e))) (snd (scrape b e)) /\
  (carries_message (fst (fst (scrape b e))) = true ->
   all_present (snd (fst (scrape b e)))).
Proof.
  intros Hn Hf. rewrite scrape_unfold.
  destruct (stream b) as [st|] eqn:Hst; [|apply backoffScrape_spec; assumption].
  destruct (RecvMsg_spec st e) as (_ & Hnx & ok & Htr).
  assert (Hconn : conn b = Some (stream_conn st)) by (apply Hn; exact Hst).
  assert (Hskip : forall c, conn b <> Some c ->
            reads_on c (trace (snd (RecvMsg st e))) = reads_on c (trace e)).
  { intros c Hc. rewrite Htr. apply reads_on_skip. congruence. }
  assert (Hf1 : fresh b (snd (RecvMsg st e))).
  { unfold fresh in *. rewrite Hnx. exact Hf. }
  destruct (RecvMsg st e) as [[m|] e1] eqn:HR; cbn [fst snd] in *.
  - split.
    + unfold op_post. repeat match goal with |- _ /\ _ => split end;
        auto using same_config_refl; lia.
    + intros _. unfold all_present. destruct Hn as (H1 & H2 & _).
      repeat split; intro E.
      * congruence.
      * specialize (H2 E). congruence.
      * congruence.
  - destruct (backoffScrape_spec b e1 Hn Hf1) as [(Hc & Hn' & Hf' & Hle & Hk & Hs) Hm].
    split; [|exact Hm].
    unfold op_post. repeat match goal with |- _ /\ _ => split end;
      auto; try lia.
    intros c Hlt Hne. destruct (Hs c ltac:(lia) Hne) as [H1 E].
    split; [exact H1|]. rewrite E. apply Hskip, Hne.
Qed.

Lemma close_spec b e :
  nested b ->
  all_absent (fst (close b e)) /\
  close (fst (close b e)) (snd (close b e)) = close b e /\
  (forall c, conn b = Some c -> snd (close b e) = conn_Close c e) /\
  (conn b = None -> close b e = (b, e)).
Proof.
  intros Hn. unfold close.
  destruct (conn b) as [c|] eqn:Hc; cbn [fst snd].
  - unfold all_absent; cbn. repeat split; intros; try congruence.
  - rewrite Hc. unfold all_absent.
    destruct Hn as (H1 & H2 & _). specialize (H1 Hc). specialize (H2 H1).
    repeat split; intros; auto; try discriminate.
Qed.

Lemma close_post b e :
  nested b -> fresh b e ->
  op_post b e (fst (close b e)) (snd (close b e)).
Proof.
  intros Hn Hf. unfold close, conn_Close, emit, set_stream, set_client, set_conn.
  destruct b as [tl ad cp co cl sm fw mx]. destruct e as [ds ss rs ws cs nc tr].
  destruct co as [c|]; cbn [fst snd]; unfold op_post; solve_inv.
Qed.

Lemma run_op_spec o b e :
  nested b -> fresh b e ->
  op_post b e (fst (run_op o (b, e))) (snd (run_op o (b, e))).
Proof.
  intros Hn Hf. destruct o; cbn [run_op].
  - pose proof (scrape_spec b e Hn Hf) as [H _].
    destruct (scrape b e) as [[v b'] e']. exact H.
  - pose proof (backoffScrape_spec b e Hn Hf) as [H _].
    destruct (backoffScrape b e) as [[v b'] e']. exact H.
  - unfold scrapeTiDBRecord. pose proof (scrape_spec b e Hn Hf) as [H _].
    destruct (scrape b e) as [[v b'] e']. exact H.
  - unfold scrapeTiKVRecord. pose proof (scrape_spec b e Hn Hf) as [H _].
    destruct (scrape b e) as [[v b'] e']. exact H.
  - apply close_post; assumption.
Qed.

Lemma op_post_trans b e b1 e1 b2 e2 :
  op_post b e b1 e1 -> op_post b1 e1 b2 e2 -> op_post b e b2 e2.
Proof.
  intros (Hc & Hn & Hf & Hle & Hk & Hs) (Hc' & Hn' & Hf' & Hle' & Hk' & Hs').
  unfold op_post. repeat match goal with |- _ /\ _ => split end; auto.
  - unfold same_config in *. intuition congruence.
  - lia.
  - intros c Hlt Hne. destruct (Hs c Hlt Hne) as [Hne1 E1].
    destruct (Hs' c ltac:(lia) Hne1) as [Hne2 E2].
    split; [exact Hne2|congruence].
Qed.

Lemma run_ops_spec os :
  forall b e, nested b -> fresh b e ->
    op_post b e (fst (run_ops os (b, e))) (snd (run_ops os (b, e))).
Proof.
  induction os as [|o os IH]; intros b e Hn Hf.
  - cbn. unfold op_post.
    repeat match goal with |- _ /\ _ => split end;
      auto using same_config_refl.
  - cbn [run_ops fold_left].
    pose proof (run_op_spec o b e Hn Hf) as H1.
    destruct (run_op o (b, e)) as [b1 e1]. cbn [fst snd] in H1.
    assert (Hn1 : nested b1) by apply H1.
    assert (Hf1 : fresh b1 e1) by apply H1.
    exact (op_post_trans _ _ _ _ _ _ H1 (IH b1 e1 Hn1 Hf1)).
Qed.

Lemma new_nested tls addr comp : nested (newBackoffScrape tls addr comp).
Proof. unfold nested, newBackoffScrape; cbn. repeat split; auto; discriminate. Qed.

Lemma new_fresh tls addr comp e : fresh (newBackoffScrape tls addr comp) e.
Proof. unfold fresh, newBackoffScrape; cbn. discriminate. Qed.

(** ** The connection state (C1, C5) *)

(** C1, as stated, fails: when the dial succeeds and the subscribe call
    fails on every attempt, [scrape] returns with the connection and the
    client populated and the stream absent. *)
Lemma partial_state_after_failed_subscribe :
  let b := snd (fst (scrape tidb_bo env_subscribe_fails)) in
  conn b = Some 7 /\ client b = Some (TopSQLPubSubClient 7) /\
  stream b = None /\ ~ (all_present b \/ all_absent b).
Proof.
  vm_compute. repeat split.
  intros [(_ & _ & H) | (H & _)]; [apply H; reflexivity | discriminate H].
Qed.

(** C1, amended.  After construction, and after any sequence of completed
    calls to [scrape], [backoffScrape], the two record wrappers and
    [close], the triple is nested: no client without the connection, no
    stream without the client, and what is held was built on the
    connection held.  All three are absent after construction and after
    [close], and all three are present whenever [scrape] or
    [backoffScrape] returns a record that carries a message. *)
Theorem connection_state_nested :
  forall tls addr comp e0 ops,
    all_absent (newBackoffScrape tls addr comp) /\
    let b := fst (run_ops ops (newBackoffScrape tls addr comp, e0)) in
    let e := snd (run_ops ops (newBackoffScrape tls addr comp, e0)) in
    nested b /\
    all_absent (fst (close b e)) /\
    (carries_message (fst (fst (scrape b e))) = true ->
     all_present (snd (fst (scrape b e)))) /\
    (carries_message (fst (fst (backoffScrape b e))) = true ->
     all_present (snd (fst (backoffScrape b e)))).
Proof.
  intros tls addr comp e0 ops.
  split; [unfold all_absent; cbn; auto|].
  pose proof (run_ops_spec ops _ e0 (new_nested tls addr comp)
                (new_fresh tls addr comp e0)) as (_ & Hn & Hf & _).
  cbv zeta. split; [exact Hn|]. split; [apply close_spec; exact Hn|].
  split; [apply scrape_spec | apply backoffScrape_spec]; assumption.
Qed.

Lemma connection_state_nested_witness :
  let b := fst (run_ops [OpScrape] (tidb_bo, env_one_record)) in
  let e := snd (run_ops [OpScrape] (tidb_bo, env_one_record)) in
  carries_message (fst (fst (scrape tidb_bo env_one_record))) = true /\
  all_present b /\ nested b /\ all_absent (fst (close b e)).
Proof.
  pose proof (connection_state_nested None "tidb:10080" tidb_target
                env_one_record []) as (_ & _ & _ & Hs & _).
  pose proof (connection_state_nested None "tidb:10080" tidb_target
                env_one_record [OpScrape]) as (_ & Hn & Hc & _).
  cbv zeta. split; [reflexivity|].
  split; [exact (Hs eq_refl) | split; [exact Hn | exact Hc]].
Defined.

(** C5. On a nested state [close] clears all three fields, releasing the
    connection exactly when one is held; a second [close] right after
    changes neither the fields nor the world, so the connection is
    released once, not twice.  [close] has no error to report. *)
Theorem close_idempotent :
  forall b e,
    nested b ->
    let b1 := fst (close b e) in
    let e1 := snd (close b e) in
    all_absent b1 /\
    close b1 e1 = (b1, e1) /\
    (forall c, conn b = Some c ->
       e1 = conn_Close c e /\
       closes_of c (trace (snd (close b1 e1))) = S (closes_of c (trace e))) /\
    (conn b = None -> b1 = b /\ e1 = e).
Proof.
  intros b e Hn. cbv zeta.
  destruct (close_spec b e Hn) as (Ha & Hi & Hc & Hnone).
  split; [exact Ha|].
  assert (Hfix : close (fst (close b e)) (snd (close b e))
                 = (fst (close b e), snd (close b e))).
  { rewrite Hi. destruct (close b e); reflexivity. }
  split; [exact Hfix|]. split.
  - intros c E. split; [apply Hc, E|].
    rewrite Hfix. cbn [snd]. rewrite (Hc c E).
    cbn. rewrite Nat.eqb_refl. reflexivity.
  - intros E. rewrite (Hnone E). split; reflexivity.
Qed.

Lemma close_idempotent_witness :
  let b := snd (fst (scrape tidb_bo env_one_record)) in
  let e := snd (scrape tidb_bo env_one_record) in
  nested b /\ conn b = Some 0 /\
  all_absent (fst (close b e)) /\
  closes_of 0 (trace (snd (close (fst (close b e)) (snd (close b e))))) = 1.
Proof.
  cbv zeta.
  assert (Hn : nested (snd (fst (scrape tidb_bo env_one_record)))).
  { vm_compute. repeat split; try discriminate;
      intros x E; injection E as <-; reflexivity. }
  destruct (close_idempotent _ (snd (scrape tidb_bo env_one_record)) Hn)
    as (Ha & _ & Hc & _).
  split; [exact Hn|]. split; [reflexivity|]. split; [exact Ha|].
  exact (proj2 (Hc 0 eq_refl)).
Defined.

(** ** Dispatch and the record wrappers (C7, C8, C10) *)

(** C8. For a target whose kind is neither TiDB nor TiKV, [Run] panics
    with "unexpected scrape target" right after its start log line: no
    stream is built, nothing is dialled, and the panic is what [Run]
    ends with, whatever the fuel. *)
Theorem Run_panics_on_unrecognised_kind :
  forall fuel s e tag,
    Kind (scraper_component s) = ComponentOther tag ->
    Run fuel s e
    = Panicked "unexpected scrape target"
        (log_Info "Starting Top SQL scraping" None (scraper_component s) e).
Proof.
  intros fuel s e tag H. unfold Run. rewrite H. reflexivity.
Qed.

Lemma Run_panics_on_unrecognised_kind_witness :
  Kind (scraper_component (mkScraper None other_target)) = ComponentOther 0 /\
  Run 5 (mkScraper None other_target) env_one_record
  = Panicked "unexpected scrape target"
      (log_Info "Starting Top SQL scraping" None other_target env_one_record).
Proof.
  split; [reflexivity|].
  exact (Run_panics_on_unrecognised_kind 5 (mkScraper None other_target)
           env_one_record 0 eq_refl).
Defined.

Lemma drainTiDB_stops fuel target n b e :
  fst (fst (scrapeTiDBRecord b e)) = None ->
  drainTiDB (S fuel) target n b e
  = Some (snd (fst (scrape b e)), snd (scrape b e)).
Proof.
  unfold scrapeTiDBRecord. cbn [drainTiDB]. unfold scrapeTiDBRecord.
  destruct (scrape b e) as [[v b'] e']. cbn [fst snd].
  intros ->. reflexivity.
Qed.

Lemma drainTiKV_stops fuel target n b e :
  fst (fst (scrapeTiKVRecord b e)) = None ->
  drainTiKV (S fuel) target n b e
  = Some (snd (fst (scrape b e)), snd (scrape b e)).
Proof.
  unfold scrapeTiKVRecord. cbn [drainTiKV]. unfold scrapeTiKVRecord.
  destruct (scrape b e) as [[v b'] e']. cbn [fst snd].
  intros ->. reflexivity.
Qed.

(** C10. When [scrape] yields a record of the other shape, the wrapper
    returns nil and the drain loop returns in that very iteration, in the
    state [scrape] left: the same exit as after retry exhaustion. *)
Theorem wrong_shape_is_terminal :
  forall b e,
    (forall p, fst (fst (scrape b e)) = IResourceUsageRecord p ->
       fst (fst (scrapeTiDBRecord b e)) = None /\
       forall fuel target n,
         drainTiDB (S fuel) target n b e
         = Some (snd (fst (scrape b e)), snd (scrape b e))) /\
    (forall p, fst (fst (scrape b e)) = ITopSQLSubResponse p ->
       fst (fst (scrapeTiKVRecord b e)) = None /\
       forall fuel target n,
         drainTiKV (S fuel) target n b e
         = Some (snd (fst (scrape b e)), snd (scrape b e))).
Proof.
  intros b e. split; intros p H.
  - assert (E : fst (fst (scrapeTiDBRecord b e)) = None).
    { unfold scrapeTiDBRecord. destruct (scrape b e) as [[v b'] e'].
      cbn in *. subst v. reflexivity. }
    split; [exact E|]. intros. apply drainTiDB_stops, E.
  - assert (E : fst (fst (scrapeTiKVRecord b e)) = None).
    { unfold scrapeTiKVRecord. destruct (scrape b e) as [[v b'] e'].
      cbn in *. subst v. reflexivity. }
    split; [exact E|]. intros. apply drainTiKV_stops, E.
Qed.

Lemma wrong_shape_is_terminal_witness :
  fst (fst (scrape tikv_bo env_one_record))
    = IResourceUsageRecord (Some {| usage_record := 5 |}) /\
  fst (fst (scrapeTiDBRecord tikv_bo env_one_record)) = None /\
  drainTiDB 3 tikv_target 0 tikv_bo env_one_record
  = Some (snd (fst (scrape tikv_bo env_one_record)),
          snd (scrape tikv_bo env_one_record)).
Proof.
  destruct (wrong_shape_is_terminal tikv_bo env_one_record) as [H _].
  destruct (H (Some {| usage_record := 5 |}) eq_refl) as [H1 H2].
  split; [reflexivity|]. split; [exact H1 | exact (H2 2 tikv_target 0)].
Defined.

Lemma attempt_record_kinded i fr :
  record_kinded (Kind (component (this fr))) (record fr) ->
  component (this (snd (backoffScrape_attempt i fr))) = component (this fr) /\
  record_kinded (Kind (component (this fr)))
                (record (snd (backoffScrape_attempt i fr))).
Proof.
  open_frame fr. cbn [this record component Kind]. intros H.
  attempt_cases; cbn; auto.
Qed.

Lemma reconnect_record_kinded b e :
  record_kinded (Kind (component b)) (record (snd (reconnect b e))).
Proof.
  pose proof (retry_from_invariant bo_ctx (firstWaitTime b)
    backoffScrape_attempt
    (fun fr => component (this fr) = component b /\
               record_kinded (Kind (component b)) (record fr))) as R.
  apply R.
  - intros i fr [Hc Hr]. rewrite <- Hc in Hr.
    destruct (attempt_record_kinded i fr Hr) as [Hc' Hr'].
    split; congruence.
  - intros i fr [Hc Hr].
    destruct (bo_ctx_spec (firstWaitTime b) i fr) as (E1 & E2 & _).
    rewrite E1, E2. split; assumption.
  - cbn. auto.
Qed.

Lemma scrape_record_kinded b e :
  kinded b -> record_kinded (Kind (component b)) (fst (fst (scrape b e))).
Proof.
  intros Hk. rewrite scrape_unfold. unfold kinded in Hk.
  destruct (stream b) as [st|].
  - destruct (RecvMsg st e) as [[m|] e1].
    + cbn [fst]. destruct st, (Kind (component b)); cbn; auto.
    + rewrite backoffScrape_reconnect. apply reconnect_record_kinded.
  - rewrite backoffScrape_reconnect. apply reconnect_record_kinded.
Qed.

(** C7. [scrapeTiDBRecord] returns a value only when [scrape] produced a
    non-nil [*tipb.TopSQLSubResponse], and then that very value;
    [scrapeTiKVRecord] likewise for [*ResourceUsageRecord]; whatever else
    [scrape] produces becomes nil.  Moreover a stream whose handles speak
    the protocol of its target, as they do in every state reached from
    [newBackoffScrape], only ever makes [scrape] produce the nil interface
    or a record of the target's own kind. *)
Theorem records_match_the_bound_kind :
  forall b e,
    (forall r, fst (fst (scrapeTiDBRecord b e)) = Some r ->
       fst (fst (scrape b e)) = ITopSQLSubResponse (Some r)) /\
    (forall r, fst (fst (scrapeTiKVRecord b e)) = Some r ->
       fst (fst (scrape b e)) = IResourceUsageRecord (Some r)) /\
    (kinded b ->
       record_kinded (Kind (component b)) (fst (fst (scrape b e)))) /\
    (forall tls addr comp e0 ops,
       kinded (fst (run_ops ops (newBackoffScrape tls addr comp, e0)))).
Proof.
  intros b e. repeat match goal with |- _ /\ _ => split end.
  - unfold scrapeTiDBRecord. destruct (scrape b e) as [[v b'] e'].
    cbn [fst snd]. destruct v as [|p|p]; cbn; intros r H;
      try discriminate; congruence.
  - unfold scrapeTiKVRecord. destruct (scrape b e) as [[v b'] e'].
    cbn [fst snd]. destruct v as [|p|p]; cbn; intros r H;
      try discriminate; congruence.
  - apply scrape_record_kinded.
  - intros tls addr comp e0 ops.
    pose proof (run_ops_spec ops _ e0 (new_nested tls addr comp)
                  (new_fresh tls addr comp e0)) as (_ & _ & _ & _ & Hk & _).
    apply Hk. unfold kinded. cbn. exact Logic.I.
Qed.

Lemma records_match_the_bound_kind_witness :
  fst (fst (scrapeTiDBRecord tidb_bo env_one_record))
    = Some {| sub_response := 5 |} /\
  fst (fst (scrape tidb_bo env_one_record))
    = ITopSQLSubResponse (Some {| sub_response := 5 |}) /\
  kinded tidb_bo /\
  record_kinded ComponentTiDB (fst (fst (scrape tidb_bo env_one_record))).
Proof.
  destruct (records_match_the_bound_kind tidb_bo env_one_record)
    as (H1 & _ & H3 & _).
  split; [reflexivity|].
  split; [exact (H1 {| sub_response := 5 |} eq_refl)|].
  split; [exact Logic.I | exact (H3 Logic.I)].
Defined.

(** ** Retry exhaustion and the unrecognised kind (C2, C9) *)

Lemma reconnect_failure_record b e :
  fst (reconnect b e) = false ->
  carries_message (record (snd (reconnect b e))) = false.
Proof.
  unfold reconnect, WithRetryBackoff.
  destruct (maxRetryTimes b) as [|n]; [reflexivity|].
  pose proof (retry_from_rule bo_ctx (firstWaitTime b) backoffScrape_attempt
    (fun fr => carries_message (record fr) = false)
    (fun _ => True)
    (fun fr => carries_message (record fr) = false)) as R.
  set (run := retry_from bo_ctx (firstWaitTime b) backoffScrape_attempt
                (S n) 0 (mkFrame INil b e)) in *.
  assert (H : if fst run then True
              else carries_message (record (snd run)) = false).
  { apply R.
    - intros i fr Hr. pose proof (attempt_record i fr Hr) as H.
      destruct (fst (backoffScrape_attempt i fr)); [exact Logic.I|exact H].
    - intros i fr Hr.
      destruct (bo_ctx_spec (firstWaitTime b) i fr) as (E & _).
      rewrite E. split; exact Hr.
    - reflexivity. }
  intros E. rewrite E in H. exact H.
Qed.

(** C9. For a target of an unrecognised kind, an attempt whose dial
    succeeds returns [true] through the empty default branch: the retry
    driver succeeds on its first call, and [backoffScrape] returns the
    nil record, holding the fresh connection (and, from a nested state,
    no client and no stream). *)
Theorem unrecognised_kind_attempt_succeeds :
  forall b e tag ds,
    Kind (component b) = ComponentOther tag ->
    dial_script e = true :: ds ->
    0 < maxRetryTimes b ->
    fst (backoffScrape_attempt 0 (mkFrame INil b e)) = true /\
    fst (WithRetryBackoff bo_ctx (firstWaitTime b) backoffScrape_attempt
           (maxRetryTimes b) (mkFrame INil b e)) = true /\
    calls bo_ctx (maxRetryTimes b) (firstWaitTime b) backoffScrape_attempt
          (mkFrame INil b e) = 1 /\
    fst (fst (backoffScrape b e)) = INil /\
    conn (snd (fst (backoffScrape b e))) = Some (next_conn e) /\
    (nested b ->
     client (snd (fst (backoffScrape b e))) = None /\
     stream (snd (fst (backoffScrape b e))) = None).
Proof.
  intros b e tag ds Hk Hd Hmx.
  assert (Hatt : exists b' e',
            backoffScrape_attempt 0 (mkFrame INil b e)
            = (true, mkFrame INil b' e') /\
            conn b' = Some (next_conn e) /\
            (nested b -> client b' = None /\ stream b' = None)).
  { destruct b as [tl ad [kd adr] co cl sm fw mx].
    destruct e as [dsc ss rs ws cs nc tr].
    cbn in Hk, Hd. subst kd dsc.
    unfold backoffScrape_attempt, dial, conn_Close, emit, set_stream,
      set_client, set_conn.
    destruct co as [c|]; cbn.
    - do 2 eexists. split; [reflexivity|]. cbn. auto.
    - do 2 eexists. split; [reflexivity|]. cbn. split; [reflexivity|].
      intros (Hn1 & Hn2 & _). cbn in Hn1, Hn2.
      specialize (Hn1 eq_refl). specialize (Hn2 Hn1). auto. }
  destruct Hatt as (b' & e' & Hatt & Hc & Hrest).
  destruct (retry_from_succeeds bo_ctx (firstWaitTime b) backoffScrape_attempt
              0 (maxRetryTimes b) 0 0 (mkFrame INil b e) Hmx) as [H1 H2].
  { cbn. rewrite Hatt. reflexivity. }
  split; [rewrite Hatt; reflexivity|].
  split; [exact H1|]. split; [exact H2|].
  rewrite backoffScrape_reconnect. unfold reconnect, WithRetryBackoff.
  destruct (maxRetryTimes b) as [|n]; [lia|].
  cbn [retry_from]. rewrite Hatt. cbn. auto.
Qed.

Lemma unrecognised_kind_attempt_succeeds_witness :
  Kind (component other_bo) = ComponentOther 0 /\
  dial_script env_dial_ok = [true] /\
  0 < maxRetryTimes other_bo /\
  calls bo_ctx (maxRetryTimes other_bo) (firstWaitTime other_bo)
        backoffScrape_attempt (mkFrame INil other_bo env_dial_ok) = 1 /\
  fst (fst (backoffScrape other_bo env_dial_ok)) = INil.
Proof.
  assert (Hmx : 0 < maxRetryTimes other_bo) by (cbn; lia).
  pose proof (unrecognised_kind_attempt_succeeds other_bo env_dial_ok 0 []
                eq_refl eq_refl Hmx) as (_ & _ & Hc & Hr & _).
  split; [reflexivity|]. split; [reflexivity|]. split; [exact Hmx|].
  split; [exact Hc | exact Hr].
Defined.

(** The whole of [Run] in the scenario of C2 at the start of a scraper's
    life: the first reconnect fails eight times, the drain loop returns
    and the deferred [close] leaves no connection state behind. *)
Lemma Run_returns_after_exhaustion fuel s e :
  Kind (scraper_component s) = ComponentTiDB ->
  let b := newBackoffScrape (tlsConfig s) (Addr (scraper_component s))
                            (scraper_component s) in
  let e1 := log_Info "Starting Top SQL scraping" None (scraper_component s) e in
  always_fails bo_ctx (firstWaitTime b) backoffScrape_attempt 8 0
               (mkFrame INil b e1) ->
  Run (S fuel) s e
  = Returned (fst (close (snd (fst (backoffScrape b e1)))
                         (snd (backoffScrape b e1))))
             (snd (close (snd (fst (backoffScrape b e1)))
                         (snd (backoffScrape b e1)))) /\
  all_absent (fst (close (snd (fst (backoffScrape b e1)))
                         (snd (backoffScrape b e1)))).
Proof.
  intros Hk b e1 Hfail.
  destruct (retry_from_exhausts bo_ctx (firstWaitTime b) backoffScrape_attempt
              8 0 0 (mkFrame INil b e1) Hfail) as [Hres _].
  pose proof (reconnect_failure_record b e1 Hres) as Hrec.
  assert (Hs : scrape b e1 = backoffScrape b e1) by reflexivity.
  assert (Hd : fst (fst (scrapeTiDBRecord b e1)) = None).
  { unfold scrapeTiDBRecord. rewrite Hs, backoffScrape_reconnect.
    cbn [fst snd]. destruct (record (snd (reconnect b e1))) as [|[r|]|[r|]];
      try reflexivity; discriminate Hrec. }
  split.
  - unfold Run. rewrite Hk. unfold scrapeTiDB. fold b. fold e1.
    rewrite (drainTiDB_stops fuel _ 0 b e1 Hd), Hs.
    destruct (close _ _) as [b2 e2]. reflexivity.
  - apply close_spec.
    apply (backoffScrape_spec b e1 (new_nested _ _ _) (new_fresh _ _ _ _)).
Qed.

(** ** Scenarios for the retry driver (C3, C6) *)

Lemma WithRetryBackoff_succeeds_after_failures_witness :
  3 < 8 /\
  fails_then_succeeds bo_ctx (firstWaitTime tidb_bo) backoffScrape_attempt 3 0
    (mkFrame INil tidb_bo env_fourth_succeeds) /\
  fst (WithRetryBackoff bo_ctx (firstWaitTime tidb_bo) backoffScrape_attempt 8
         (mkFrame INil tidb_bo env_fourth_succeeds)) = true /\
  calls bo_ctx 8 (firstWaitTime tidb_bo) backoffScrape_attempt
        (mkFrame INil tidb_bo env_fourth_succeeds) = 3 + 1.
Proof.
  assert (Hlt : 3 < 8) by lia.
  assert (Hsc : fails_then_succeeds bo_ctx (firstWaitTime tidb_bo)
                  backoffScrape_attempt 3 0
                  (mkFrame INil tidb_bo env_fourth_succeeds)).
  { vm_compute. repeat split. }
  pose proof (WithRetryBackoff_succeeds_after_failures Frame bo_ctx
                (firstWaitTime tidb_bo) backoffScrape_attempt 8 3
                (mkFrame INil tidb_bo env_fourth_succeeds) Hlt Hsc)
    as (H1 & H2 & _).
  split; [exact Hlt|]. split; [exact Hsc|]. split; [exact H1 | exact H2].
Defined.

Lemma WithRetryBackoff_cancelled_during_wait_witness :
  2 < 8 /\
  cancelled_after bo_ctx (firstWaitTime tidb_bo) backoffScrape_attempt 2 0
    (mkFrame INil tidb_bo env_cancelled) /\
  fst (WithRetryBackoff bo_ctx (firstWaitTime tidb_bo) backoffScrape_attempt 8
         (mkFrame INil tidb_bo env_cancelled)) = false /\
  calls bo_ctx 8 (firstWaitTime tidb_bo) backoffScrape_attempt
        (mkFrame INil tidb_bo env_cancelled) = 2.
Proof.
  assert (Hlt : 2 < 8) by lia.
  assert (Hsc : cancelled_after bo_ctx (firstWaitTime tidb_bo)
                  backoffScrape_attempt 2 0
                  (mkFrame INil tidb_bo env_cancelled)).
  { vm_compute. repeat split. }
  pose proof (WithRetryBackoff_cancelled_during_wait Frame bo_ctx
                (firstWaitTime tidb_bo) backoffScrape_attempt 8 2
                (mkFrame INil tidb_bo env_cancelled) Hlt Hsc) as (H1 & H2).
  split; [exact Hlt|]. split; [exact Hsc|]. split; [exact H1 | exact H2].
Defined.

(** ** Reconnecting after a read failure (C4) *)

Ltac split_trace :=
  first
    [ solve [exists (@nil Event); eexists; split;
             [reflexivity | cbn; repeat split; auto]]
    | solve [eexists [_]; eexists; split;
             [reflexivity | cbn; repeat split; auto;
                            try (exists (@nil Event); eexists; reflexivity)]]
    | solve [eexists [_; _]; eexists; split;
             [reflexivity | cbn; repeat split; auto;
                            try (eexists [_]; eexists; reflexivity)]]
    | solve [eexists [_; _; _]; eexists; split;
             [reflexivity | cbn; repeat split; auto;
                            try (eexists [_; _]; eexists; reflexivity)]] ].

Lemma attempt_trace i fr :
  tears_down_then_dials (this fr) (world fr)
    (trace (world (snd (backoffScrape_attempt i fr)))).
Proof.
  open_frame fr. unfold tears_down_then_dials, close.
  attempt_cases; unfold conn_Close, emit; cbn; split_trace.
Qed.

Lemma extends_refl t : extends t t.
Proof. exists []. reflexivity. Qed.

Lemma extends_trans t1 t2 t3 : extends t1 t2 -> extends t2 t3 -> extends t1 t3.
Proof.
  intros [l1 ->] [l2 ->]. exists (l2 ++ l1)%list. apply app_assoc.
Qed.

Lemma attempt_extends i fr :
  extends (trace (world fr)) (trace (world (snd (backoffScrape_attempt i fr)))).
Proof.
  destruct (attempt_trace i fr) as (later & res & E & _). rewrite E.
  unfold close. destruct (conn (this fr)) as [c|]; cbn [snd].
  - exists (later ++ [EvDial (address (this fr))
                        (match tlsCfg (this fr) with
                         | None => false | Some _ => true end) res;
                      EvConnClose c])%list.
    rewrite <- app_assoc. reflexivity.
  - exists (later ++ [EvDial (address (this fr))
                        (match tlsCfg (this fr) with
                         | None => false | Some _ => true end) res])%list.
    rewrite <- app_assoc. reflexivity.
Qed.

Lemma bo_ctx_extends d i fr :
  extends (trace (world fr)) (trace (world (snd (bo_ctx d i fr)))).
Proof.
  open_frame fr. unfold bo_ctx, env_wait, emit. cbn [world wait_script].
  destruct ws as [|[] ws']; cbn; eexists [_]; reflexivity.
Qed.

Lemma retry_from_extends first n i fr :
  extends (trace (world fr))
          (trace (world (snd (retry_from bo_ctx first backoffScrape_attempt
                                n i fr)))).
Proof.
  apply (retry_from_invariant bo_ctx first backoffScrape_attempt
           (fun fr' => extends (trace (world fr)) (trace (world fr')))).
  - intros j s H. eapply extends_trans; [exact H|apply attempt_extends].
  - intros j s H. eapply extends_trans; [exact H|apply bo_ctx_extends].
  - apply extends_refl.
Qed.

Lemma retry_from_first first n i fr :
  extends (trace (world (snd (backoffScrape_attempt i fr))))
          (trace (world (snd (retry_from bo_ctx first backoffScrape_attempt
                                (S n) i fr)))).
Proof.
  destruct n as [|n].
  - rewrite retry_from_one.
    destruct (backoffScrape_attempt i fr) as [[|] fr1]; apply extends_refl.
  - rewrite retry_from_more.
    destruct (backoffScrape_attempt i fr) as [[|] fr1]; cbn [snd];
      [apply extends_refl|].
    pose proof (bo_ctx_extends first i fr1) as Hw.
    destruct (bo_ctx first i fr1) as [[|] fr2]; cbn [snd] in *; [|exact Hw].
    eapply extends_trans; [exact Hw|apply retry_from_extends].
Qed.

(** C4. In a state reached from [newBackoffScrape] that holds a stream
    [st], a [scrape] whose read of [st] fails reports nothing to its
    caller but goes on to [backoffScrape]; there the connection of [st]
    is released and then a dial is made, before anything else.  Every
    attempt has that shape: release of the connection held, dial, and on
    a successful dial the subscribe call of the target's kind on the
    fresh connection; after it nothing built on an older connection is
    held.  No later operation reads a stream over the connection of [st]
    again. *)
Theorem read_failure_reconnects :
  forall tls addr comp e0 ops st,
    let b := fst (run_ops ops (newBackoffScrape tls addr comp, e0)) in
    let e := snd (run_ops ops (newBackoffScrape tls addr comp, e0)) in
    let e1 := snd (RecvMsg st e) in
    stream b = Some st ->
    fst (RecvMsg st e) = None ->
    scrape b e = backoffScrape b e1 /\
    (exists later res,
       trace (snd (scrape b e))
       = (later
          ++ EvDial (address b)
                    (match tlsCfg b with None => false | Some _ => true end)
                    res
          :: EvConnClose (stream_conn st) :: trace e1)%list) /\
    (forall i fr,
       tears_down_then_dials (this fr) (world fr)
         (trace (world (snd (backoffScrape_attempt i fr))))) /\
    (forall i fr,
       nested (this fr) -> fresh (this fr) (world fr) ->
       nested (this (snd (backoffScrape_attempt i fr))) /\
       forall c, c < next_conn (world fr) ->
         conn (this (snd (backoffScrape_attempt i fr))) <> Some c) /\
    conn (snd (fst (scrape b e))) <> Some (stream_conn st) /\
    (forall ops',
       reads_on (stream_conn st)
         (trace (snd (run_ops ops' (snd (fst (scrape b e)), snd (scrape b e)))))
       = reads_on (stream_conn st) (trace e1)).
Proof.
  intros tls addr comp e0 ops st b e e1 Hst Hfail.
  pose proof (run_ops_spec ops _ e0 (new_nested tls addr comp)
                (new_fresh tls addr comp e0)) as (Hcfg & Hn & Hf & _).
  fold b in Hcfg, Hn, Hf. fold e in Hf.
  assert (Hmx : maxRetryTimes b = 8)
    by (destruct Hcfg as (_ & _ & _ & _ & E); exact E).
  assert (Hconn : conn b = Some (stream_conn st)) by (apply Hn; exact Hst).
  destruct (RecvMsg_spec st e) as (_ & Hnx & ok & Htr). fold e1 in Hnx, Htr.
  assert (Hf1 : fresh b e1) by (unfold fresh in *; rewrite Hnx; exact Hf).
  assert (Hlt : stream_conn st < next_conn e1) by (apply Hf1; exact Hconn).
  assert (Hfall : scrape b e = backoffScrape b e1).
  { rewrite scrape_unfold, Hst. subst e1.
    destruct (RecvMsg st e) as [[m|] e']; [discriminate Hfail|reflexivity]. }
  destruct (reconnect_spec b e1 Hn Hf1)
    as (_ & Hn' & Hf' & Hle & Hr & _ & Hs & _).
  split; [exact Hfall|]. split; [|split; [|split; [|split]]].
  - rewrite Hfall, backoffScrape_reconnect. cbn [snd].
    unfold reconnect, WithRetryBackoff. rewrite Hmx.
    destruct (retry_from_first (firstWaitTime b) 7 0 (mkFrame INil b e1))
      as [l2 E2].
    destruct (attempt_trace 0 (mkFrame INil b e1)) as (l1 & res & E1 & _).
    cbn [this world] in E1. unfold close in E1. rewrite Hconn in E1.
    cbn [snd conn_Close emit trace] in E1.
    exists (l2 ++ l1)%list, res. rewrite E2, E1, app_assoc. reflexivity.
  - intros i fr. apply attempt_trace.
  - intros i fr Hni Hfi.
    destruct (attempt_spec i fr Hni Hfi) as (_ & H1 & _ & _ & _ & H2).
    split; [exact H1|]. intros c Hc. apply H2, Hc.
  - rewrite Hfall, backoffScrape_reconnect. cbn [fst snd].
    apply Hs; [exact Hlt|left; lia].
  - intros ops'. rewrite Hfall, backoffScrape_reconnect. cbn [fst snd].
    pose proof (run_ops_spec ops' _ _ Hn' Hf') as (_ & _ & _ & _ & _ & Hstale).
    destruct (Hstale (stream_conn st)) as [_ E].
    + lia.
    + apply Hs; [exact Hlt|left; lia].
    + rewrite E. apply Hr, Hlt.
Qed.

Lemma read_failure_reconnects_witness :
  let b := fst (run_ops [OpScrape] (tidb_bo, env_breaks)) in
  let e := snd (run_ops [OpScrape] (tidb_bo, env_breaks)) in
  let st := TopSQLPubSub_SubscribeClient 0 in
  stream b = Some st /\
  fst (RecvMsg st e) = None /\
  scrape b e = backoffScrape b (snd (RecvMsg st e)) /\
  conn (snd (fst (scrape b e))) <> Some 0 /\
  reads_on 0 (trace (snd (run_ops [OpScrape; OpClose]
                            (snd (fst (scrape b e)), snd (scrape b e)))))
  = reads_on 0 (trace (snd (RecvMsg st e))).
Proof.
  cbv zeta.
  assert (H1 : stream (fst (run_ops [OpScrape] (tidb_bo, env_breaks)))
               = Some (TopSQLPubSub_SubscribeClient 0)) by reflexivity.
  assert (H2 : fst (RecvMsg (TopSQLPubSub_SubscribeClient 0)
                      (snd (run_ops [OpScrape] (tidb_bo, env_breaks)))) = None)
    by reflexivity.
  pose proof (read_failure_reconnects None "tidb:10080" tidb_target env_breaks
                [OpScrape] (TopSQLPubSub_SubscribeClient 0) H1 H2)
    as (Ha & _ & _ & _ & Hc & Hr).
  split; [exact H1|]. split; [exact H2|]. split; [exact Ha|].
  split; [exact Hc | exact (Hr [OpScrape; OpClose])].
Defined.

(** * Further properties of the code *)

(** ** Bookkeeping on traces *)

Lemma count_app p l1 l2 : count p (l1 ++ l2) = count p l1 + count p l2.
Proof. unfold count. rewrite filter_app, length_app. reflexivity. Qed.

Lemma closes_of_app c l1 l2 :
  closes_of c (l1 ++ l2) = closes_of c l1 + closes_of c l2.
Proof.
  induction l1 as [|ev l1 IH]; [reflexivity|].
  destruct ev; cbn [app closes_of]; rewrite IH; lia.
Qed.

Lemma logged_app l1 l2 : logged (l1 ++ l2) = logged l1 + logged l2.
Proof.
  induction l1 as [|ev l1 IH]; [reflexivity|].
  destruct ev as [| | | | | |msg [n|] t]; cbn [app logged]; rewrite IH; lia.
Qed.

Lemma delivered_app l1 l2 :
  delivered (l1 ++ l2) = (delivered l1 ++ delivered l2)%list.
Proof.
  induction l1 as [|[m|] l1 IH]; cbn [app delivered]; rewrite ?IH; reflexivity.
Qed.

Ltac prefix_of A l t :=
  match l with
  | t => constr:(@nil A)
  | ?x :: ?l' => let p := prefix_of A l' t in constr:(@cons A x p)
  end.

(** Provide the events added and the answers used when both sides of
    the equations are explicit lists. *)
Ltac give_prefix :=
  match goal with
  | |- @eq (list ?A) ?l (?x ++ ?t)%list =>
      is_evar x; let p := prefix_of A l t in unify x p; reflexivity
  end.

Ltac nat_cases :=
  repeat match goal with
    | |- context [Nat.eqb ?a ?b] => destruct (Nat.eqb_spec a b)
    | |- context [Nat.leb ?a ?b] => destruct (Nat.leb_spec a b)
    | |- context [Nat.ltb ?a ?b] => destruct (Nat.ltb_spec a b)
    end;
  cbn [andb orb negb List.length app]; try lia.

Ltac solve_effects :=
  cbn -[Nat.leb Nat.ltb Nat.eqb];
  repeat match goal with |- _ /\ _ => split end;
  try reflexivity; try lia;
  try (intros; nat_cases; fail);
  try (repeat constructor; cbn; auto; fail).

Lemma attempt_effects i fr :
  exists later consumed,
    effects (this fr) (world fr) later consumed
            (this (snd (backoffScrape_attempt i fr)))
            (world (snd (backoffScrape_attempt i fr))) /\
    Forall (allowed (this fr)) later /\
    anatomy (Kind (component (this fr))) (fst (backoffScrape_attempt i fr))
            later consumed /\
    (carries_message (record fr) = false ->
     payload (record (snd (backoffScrape_attempt i fr)))
     = delivered consumed) /\
    (record (snd (backoffScrape_attempt i fr)) = INil <->
     record fr = INil /\ count is_recv later = 0) /\
    same_config (this fr) (this (snd (backoffScrape_attempt i fr))).
Proof.
  open_frame fr. unfold effects, anatomy, same_config.
  attempt_cases; unfold live, created; cbn [conn next_conn];
    do 2 eexists;
    (split; [split; [give_prefix|split; [give_prefix|]]|]);
    solve_effects;
    try (destruct kd; reflexivity);
    try (destruct r as [|[?|]|[?|]]; cbn; intros; congruence);
    try (split; [intros; auto; discriminate | intros [? ?]; congruence]).
Qed.

Lemma bo_ctx_effects d i fr :
  exists elapsed,
    effects (this fr) (world fr) [EvWait d i elapsed] []
            (this (snd (bo_ctx d i fr))) (world (snd (bo_ctx d i fr))) /\
    fst (bo_ctx d i fr) = elapsed.
Proof.
  open_frame fr. unfold effects, bo_ctx, env_wait, emit, created.
  cbn [this world wait_script].
  destruct ws as [|[] ws']; eexists; solve_effects.
Qed.

Lemma effects_refl b e : effects b e [] [] b e.
Proof.
  unfold effects, created. solve_effects.
Qed.

Lemma effects_trans b e l1 c1 b1 e1 l2 c2 b2 e2 :
  effects b e l1 c1 b1 e1 ->
  effects b1 e1 l2 c2 b2 e2 ->
  effects b e (l2 ++ l1) (c1 ++ c2) b2 e2.
Proof.
  intros (Ht1 & Hr1 & Hn1 & Hk1 & Hc1 & Ho1) (Ht2 & Hr2 & Hn2 & Hk2 & Hc2 & Ho2).
  unfold effects.
  repeat match goal with |- _ /\ _ => split end.
  - rewrite Ht2, Ht1, app_assoc. reflexivity.
  - rewrite Hr1, Hr2, app_assoc. reflexivity.
  - lia.
  - rewrite count_app, delivered_app, length_app. lia.
  - intros c. rewrite closes_of_app, count_app.
    specialize (Hc1 c). specialize (Hc2 c). lia.
  - intros c. rewrite count_app, Ho1, Ho2. unfold created. nat_cases.
Qed.

Lemma allowed_config b b' ev :
  same_config b b' -> allowed b' ev -> allowed b ev.
Proof.
  intros (E1 & E2 & E3 & E4 & _).
  destruct ev as [c|a s r|[cc|cc] ok|[cc|cc] ok|d n el|m t|m n t];
    cbn; rewrite ?E1, ?E2, ?E3, ?E4; auto.
Qed.

Lemma same_config_trans b1 b2 b3 :
  same_config b1 b2 -> same_config b2 b3 -> same_config b1 b3.
Proof. unfold same_config. intuition congruence. Qed.

Lemma payload_no_message v : carries_message v = false -> payload v = [].
Proof. destruct v as [|[r|]|[r|]]; cbn; congruence. Qed.

Lemma reconnect_acc_attempt b e i fr :
  reconnect_acc b e fr -> carries_message (record fr) = false ->
  reconnect_acc b e (snd (backoffScrape_attempt i fr)).
Proof.
  intros (l & c & He & Ha & Hc & Hp & Hn) Hm.
  destruct (attempt_effects i fr)
    as (l' & c' & He' & Ha' & _ & Hp' & Hn' & Hc').
  exists (l' ++ l)%list, (c ++ c')%list.
  repeat match goal with |- _ /\ _ => split end.
  - eapply effects_trans; eassumption.
  - apply Forall_app. split; [|exact Ha].
    eapply Forall_impl; [|exact Ha']. intros ev. apply allowed_config, Hc.
  - eapply same_config_trans; eassumption.
  - rewrite delivered_app, <- Hp, (payload_no_message _ Hm), (Hp' Hm).
    reflexivity.
  - rewrite count_app, Hn'. rewrite Hn. lia.
Qed.

Lemma reconnect_acc_wait b e i fr :
  reconnect_acc b e fr ->
  reconnect_acc b e (snd (bo_ctx (firstWaitTime b) i fr)).
Proof.
  intros (l & c & He & Ha & Hc & Hp & Hn).
  destruct (bo_ctx_effects (firstWaitTime b) i fr) as (el & He' & _).
  destruct (bo_ctx_spec (firstWaitTime b) i fr) as (Er & Et & _).
  exists ([EvWait (firstWaitTime b) i el] ++ l)%list, (c ++ [])%list.
  repeat match goal with |- _ /\ _ => split end.
  - eapply effects_trans; eassumption.
  - apply Forall_app. split; [|exact Ha]. repeat constructor.
  - rewrite Et. exact Hc.
  - rewrite Er, app_nil_r. exact Hp.
  - rewrite Er, count_app. cbn. exact Hn.
Qed.

Lemma reconnect_accumulates b e :
  reconnect_acc b e (snd (reconnect b e)).
Proof.
  assert (H0 : reconnect_acc b e (mkFrame INil b e)).
  { exists [], []. repeat match goal with |- _ /\ _ => split end;
      auto using effects_refl, same_config_refl.
    cbn. split; reflexivity. }
  unfold reconnect, WithRetryBackoff.
  destruct (maxRetryTimes b) as [|n]; [exact H0|].
  pose proof (retry_from_rule bo_ctx (firstWaitTime b) backoffScrape_attempt
    (fun fr => reconnect_acc b e fr /\ carries_message (record fr) = false)
    (fun fr => reconnect_acc b e fr)
    (fun fr => reconnect_acc b e fr /\ carries_message (record fr) = false))
    as R.
  set (run := retry_from bo_ctx (firstWaitTime b) backoffScrape_attempt
                (S n) 0 (mkFrame INil b e)) in *.
  assert (H : if fst run then reconnect_acc b e (snd run)
              else reconnect_acc b e (snd run) /\
                   carries_message (record (snd run)) = false).
  { apply R.
    - intros i fr [Ha Hm].
      pose proof (reconnect_acc_attempt b e i fr Ha Hm) as Ha'.
      pose proof (attempt_record i fr Hm) as Hrec.
      destruct (fst (backoffScrape_attempt i fr)); [exact Ha'|].
      split; assumption.
    - intros i fr [Ha Hm].
      pose proof (reconnect_acc_wait b e i fr Ha) as Ha'.
      destruct (bo_ctx_spec (firstWaitTime b) i fr) as (Er & _).
      cbv beta. rewrite Er. split; split; assumption.
    - split; [exact H0|reflexivity]. }
  destruct (fst run); [exact H|apply H].
Qed.

(** What [backoffScrape] does to the world, and what it returns. *)
Lemma backoffScrape_effects b e :
  exists later consumed,
    effects b e later consumed (snd (fst (backoffScrape b e)))
            (snd (backoffScrape b e)) /\
    Forall (allowed b) later /\
    payload (fst (fst (backoffScrape b e))) = delivered consumed /\
    (fst (fst (backoffScrape b e)) = INil <-> count is_recv later = 0).
Proof.
  rewrite backoffScrape_reconnect. cbn [fst snd].
  destruct (reconnect_accumulates b e) as (l & c & He & Ha & _ & Hp & Hn).
  exists l, c. auto.
Qed.

Lemma RecvMsg_effects st b e :
  exists ok consumed,
    effects b e [EvRecv st ok] consumed b (snd (RecvMsg st e)) /\
    match fst (RecvMsg st e) with
    | Some m => ok = true /\ delivered consumed = [m]
    | None => ok = false /\ delivered consumed = []
    end.
Proof.
  destruct e as [ds ss rs ws cs nc tr].
  unfold effects, RecvMsg, emit, created.
  cbn [recv_script trace next_conn].
  destruct rs as [|[m|] rs'];
    cbn [fst snd recv_script trace next_conn]; do 2 eexists;
    (split; [split; [reflexivity|split; [give_prefix|]]|]); solve_effects.
Qed.

Lemma scrape_effects b e :
  kinded b ->
  exists later consumed,
    effects b e later consumed (snd (fst (scrape b e))) (snd (scrape b e)) /\
    Forall (allowed b) later /\
    payload (fst (fst (scrape b e))) = delivered consumed.
Proof.
  intros Hk. rewrite scrape_unfold.
  destruct (stream b) as [st|] eqn:Hst.
  - destruct (RecvMsg_effects st b e) as (ok & c & He & Hres).
    assert (Hal : allowed b (EvRecv st ok)).
    { unfold kinded in Hk. rewrite Hst in Hk.
      destruct st, (Kind (component b)) eqn:K; cbn; auto; contradiction. }
    destruct (RecvMsg st e) as [[m|] e1]; cbn [fst snd] in *.
    + exists [EvRecv st ok], c. destruct Hres as [_ Hd].
      split; [exact He|]. split; [repeat constructor; exact Hal|].
      rewrite Hd. destruct st; reflexivity.
    + destruct (backoffScrape_effects b e1) as (l & c' & He' & Ha & Hp & _).
      exists (l ++ [EvRecv st ok])%list, (c ++ c')%list.
      split; [eapply effects_trans; eassumption|].
      split; [apply Forall_app; split; [exact Ha|repeat constructor; exact Hal]|].
      rewrite delivered_app, (proj2 Hres), Hp. reflexivity.
  - destruct (backoffScrape_effects b e) as (l & c & He & Ha & Hp & _).
    exists l, c. auto.
Qed.

Lemma close_effects b e :
  exists later,
    effects b e later [] (fst (close b e)) (snd (close b e)) /\
    Forall (allowed b) later.
Proof.
  destruct b as [tl ad cp co cl sm fw mx]. destruct e as [ds ss rs ws cs nc tr].
  unfold effects, close, conn_Close, emit, created, live, set_stream,
    set_client, set_conn.
  destruct co as [c|]; cbn [fst snd trace recv_script next_conn conn];
    eexists; (split; [split; [give_prefix|split; [reflexivity|]]|]);
    solve_effects.
Qed.

(** ** Sequences of operations, the drain loops and [Run] *)

Lemma good_new tls addr comp e : good (newBackoffScrape tls addr comp) e.
Proof.
  split; [apply new_nested|]. split; [apply new_fresh|].
  unfold kinded. cbn. exact I.
Qed.

Lemma good_post b e b' e' : good b e -> op_post b e b' e' -> good b' e'.
Proof.
  intros (Hn & Hf & Hk) (_ & Hn' & Hf' & _ & Hk' & _).
  split; [exact Hn'|]. split; [exact Hf'|apply Hk', Hk].
Qed.

Lemma run_op_effects o b e :
  good b e ->
  exists later consumed,
    effects b e later consumed (fst (run_op o (b, e))) (snd (run_op o (b, e)))
    /\ Forall (allowed b) later.
Proof.
  intros (Hn & Hf & Hk). destruct o; cbn [run_op].
  - destruct (scrape_effects b e Hk) as (l & c & He & Ha & _).
    destruct (scrape b e) as [[v b'] e']. exists l, c. auto.
  - destruct (backoffScrape_effects b e) as (l & c & He & Ha & _).
    destruct (backoffScrape b e) as [[v b'] e']. exists l, c. auto.
  - unfold scrapeTiDBRecord.
    destruct (scrape_effects b e Hk) as (l & c & He & Ha & _).
    destruct (scrape b e) as [[v b'] e']. exists l, c. auto.
  - unfold scrapeTiKVRecord.
    destruct (scrape_effects b e Hk) as (l & c & He & Ha & _).
    destruct (scrape b e) as [[v b'] e']. exists l, c. auto.
  - destruct (close_effects b e) as (l & He & Ha). exists l, []. auto.
Qed.

Lemma run_ops_effects os :
  forall b e,
    good b e ->
    exists later consumed,
      effects b e later consumed (fst (run_ops os (b, e)))
              (snd (run_ops os (b, e))) /\
      Forall (allowed b) later.
Proof.
  induction os as [|o os IH]; intros b e Hg.
  - exists [], []. split; [apply effects_refl|constructor].
  - cbn [run_ops fold_left].
    destruct (run_op_effects o b e Hg) as (l1 & c1 & He1 & Ha1).
    pose proof (run_op_spec o b e (proj1 Hg) (proj1 (proj2 Hg))) as Hp.
    destruct (run_op o (b, e)) as [b1 e1]. cbn [fst snd] in *.
    destruct (IH b1 e1 (good_post _ _ _ _ Hg Hp)) as (l2 & c2 & He2 & Ha2).
    exists (l2 ++ l1)%list, (c1 ++ c2)%list.
    split; [eapply effects_trans; eassumption|].
    apply Forall_app. split; [|exact Ha1].
    eapply Forall_impl; [|exact Ha2]. intros ev. apply allowed_config, Hp.
Qed.

Lemma scrapes_effects k :
  forall b e,
    good b e ->
    exists later consumed,
      effects b e later consumed (snd (fst (scrapes k b e)))
              (snd (scrapes k b e)) /\
      messages (fst (fst (scrapes k b e))) = delivered consumed.
Proof.
  induction k as [|k IH]; intros b e Hg.
  - exists [], []. split; [apply effects_refl|reflexivity].
  - cbn [scrapes].
    destruct (scrape_effects b e (proj2 (proj2 Hg))) as (l1 & c1 & He1 & _ & Hp1).
    pose proof (scrape_spec b e (proj1 Hg) (proj1 (proj2 Hg))) as [Hp _].
    destruct (scrape b e) as [[v b1] e1]. cbn [fst snd] in *.
    destruct (IH b1 e1 (good_post _ _ _ _ Hg Hp)) as (l2 & c2 & He2 & Hp2).
    destruct (scrapes k b1 e1) as [[vs b2] e2]. cbn [fst snd] in *.
    exists (l2 ++ l1)%list, (c1 ++ c2)%list.
    split; [eapply effects_trans; eassumption|].
    unfold messages in *. cbn [map List.concat].
    rewrite delivered_app, Hp1, Hp2. reflexivity.
Qed.

Lemma allowed_quiet b later :
  Forall (allowed b) later ->
  logged later = 0 /\ Forall reports_some later /\
  Forall (allowed_loop b) later.
Proof.
  induction 1 as [|ev l Hev _ IH]; [repeat split; constructor|].
  destruct IH as (IH1 & IH2 & IH3).
  destruct ev; cbn in Hev; try contradiction;
    (split; [exact IH1|split; constructor; cbn; auto]).
Qed.

Lemma allowed_loop_config b b' ev :
  same_config b b' -> allowed_loop b' ev -> allowed_loop b ev.
Proof.
  intros Hc. destruct ev; cbn [allowed_loop];
    try apply (allowed_config b b' _ Hc).
  destruct Hc as (_ & _ & E & _). rewrite E. auto.
Qed.

Lemma since_effects b e :
  effects b e [] [] b (snd (since_over_a_second e)) /\
  next_conn (snd (since_over_a_second e)) = next_conn e.
Proof.
  destruct e as [ds ss rs ws cs nc tr].
  unfold since_over_a_second, effects, created. cbn [since_script].
  destruct cs as [|x cs']; solve_effects.
Qed.

Lemma log_Info_effects msg n b e :
  effects b e [EvInfo msg n (component b)] [] b
          (log_Info msg n (component b) e).
Proof.
  destruct e as [ds ss rs ws cs nc tr].
  unfold log_Info, emit, effects, created. solve_effects.
Qed.

Lemma good_same_conn b e e' :
  good b e -> next_conn e' = next_conn e -> good b e'.
Proof.
  intros (Hn & Hf & Hk) E. split; [exact Hn|]. split; [|exact Hk].
  unfold fresh in *. rewrite E. exact Hf.
Qed.


Lemma drained_stop n b e b1 e1 l1 c1 :
  good b e -> op_post b e b1 e1 ->
  effects b e l1 c1 b1 e1 -> Forall (allowed b) l1 ->
  drained n b e b1 e1.
Proof.
  intros Hg Hp He Ha. destruct (allowed_quiet b l1 Ha) as (Hl & Hr & Hal).
  exists l1, c1. repeat match goal with |- _ /\ _ => split end; auto.
  - lia.
  - apply (good_post _ _ _ _ Hg Hp).
  - apply Hp.
Qed.

Lemma drained_step n n' b e b1 e1 l1 c1 e2 l2 b' e' :
  op_post b e b1 e1 ->
  effects b e l1 c1 b1 e1 -> Forall (allowed b) l1 ->
  count is_recv_ok l1 = 1 ->
  effects b1 e1 l2 [] b1 e2 ->
  Forall (allowed_loop b) l2 -> Forall reports_some l2 ->
  logged l2 + n' = S n ->
  drained n' b1 e2 b' e' ->
  drained n b e b' e'.
Proof.
  intros Hp He1 Ha1 Hk1 He2 Ha2 Hr2 Hlog (l3 & c3 & He3 & Ha3 & Hr3 & Hl3 & Hg3 & Hc3).
  destruct (allowed_quiet b l1 Ha1) as (Hl1 & Hr1 & Hal1).
  assert (Hcfg : same_config b b1) by apply Hp.
  exists ((l3 ++ l2) ++ l1)%list, (c1 ++ [] ++ c3)%list.
  repeat match goal with |- _ /\ _ => split end.
  - eapply effects_trans; [exact He1|].
    eapply effects_trans; [exact He2|exact He3].
  - apply Forall_app. split; [apply Forall_app; split|]; try assumption.
    eapply Forall_impl; [|exact Ha3]. intros ev.
    apply allowed_loop_config, Hcfg.
  - repeat (apply Forall_app; split); assumption.
  - rewrite !logged_app, !count_app. lia.
  - apply Hg3.
  - eapply same_config_trans; eassumption.
Qed.

Lemma scrape_one_message b e l c m :
  effects b e l c (snd (fst (scrape b e))) (snd (scrape b e)) ->
  payload (fst (fst (scrape b e))) = delivered c ->
  payload (fst (fst (scrape b e))) = [m] ->
  count is_recv_ok l = 1 /\
  List.length (recv_script (snd (scrape b e))) < List.length (recv_script e).
Proof.
  intros (_ & Hr & _ & Hk & _) Hp Hm. rewrite Hp in Hm.
  split; [rewrite Hk, Hm; reflexivity|].
  rewrite Hr, length_app.
  destruct c as [|x c']; [discriminate Hm|cbn; lia].
Qed.

Lemma drainTiDB_drained fuel :
  forall n b e,
    good b e ->
    (List.length (recv_script e) < fuel ->
     drainTiDB fuel (component b) n b e <> None) /\
    (forall b' e',
       drainTiDB fuel (component b) n b e = Some (b', e') ->
       drained n b e b' e').
Proof.
  induction fuel as [|fuel IH]; intros n b e Hg.
  { split; [intros H; inversion H|discriminate]. }
  cbn [drainTiDB]. unfold scrapeTiDBRecord.
  destruct (scrape_effects b e (proj2 (proj2 Hg))) as (l1 & c1 & He1 & Ha1 & Hp1).
  pose proof (scrape_spec b e (proj1 Hg) (proj1 (proj2 Hg))) as [Hp _].
  pose proof (scrape_one_message b e l1 c1) as Hone.
  destruct (scrape b e) as [[v b1] e1]. cbn [fst snd] in *.
  destruct (assert_TopSQLSubResponse v) as [r|] eqn:Hv.
  2:{ split; [discriminate|]. intros b' e' E. injection E as <- <-.
      eapply drained_stop; eassumption. }
  assert (Hm : payload v = [sub_response r]).
  { destruct v as [|[r'|]|p]; cbn in Hv; try discriminate.
    injection Hv as ->. reflexivity. }
  destruct (Hone _ He1 Hp1 Hm) as [Hk1 Hlen].
  assert (Hg1 : good b1 e1) by exact (good_post _ _ _ _ Hg Hp).
  assert (Ec : component b1 = component b) by apply Hp.
  destruct (since_effects b1 e1) as [He2 Hnx].
  assert (Hrs : recv_script (snd (since_over_a_second e1)) = recv_script e1).
  { destruct He2 as (_ & E & _). rewrite E. reflexivity. }
  destruct (since_over_a_second e1) as [over e2]. cbn [snd] in *.
  assert (Hg2 : good b1 e2) by exact (good_same_conn _ _ _ Hg1 Hnx).
  destruct over.
  - set (e3 := log_Info "Received Top SQL record" (Some (S n)) (component b) e2).
    assert (He3 : effects b1 e2
                    [EvInfo "Received Top SQL record" (Some (S n)) (component b)]
                    [] b1 e3).
    { subst e3. rewrite <- Ec. apply log_Info_effects. }
    assert (Hg3 : good b1 e3).
    { apply (good_same_conn _ e2); [exact Hg2|reflexivity]. }
    destruct (IH 0 b1 e3 Hg3) as [IHt IHd]. rewrite Ec in IHt, IHd.
    split.
    + intros Hlt. apply IHt. subst e3. cbn [log_Info emit recv_script].
      rewrite Hrs. lia.
    + intros b' e' E. specialize (IHd b' e' E).
      pose proof (effects_trans _ _ _ _ _ _ _ _ _ _ He2 He3) as He23.
      cbn [app] in He23.
      eapply (drained_step n 0 b e b1 e1 l1 c1 e3
                [EvInfo "Received Top SQL record" (Some (S n)) (component b)]);
        try eassumption.
      * constructor; [reflexivity|constructor].
      * constructor; [cbn; lia|constructor].
      * cbn. lia.
  - destruct (IH (S n) b1 e2 Hg2) as [IHt IHd]. rewrite Ec in IHt, IHd.
    split.
    + intros Hlt. apply IHt. rewrite Hrs. lia.
    + intros b' e' E. specialize (IHd b' e' E).
      eapply (drained_step n (S n) b e b1 e1 l1 c1 e2 []); try eassumption.
      * constructor.
      * constructor.
      * reflexivity.
Qed.

Lemma drainTiKV_drained fuel :
  forall n b e,
    good b e ->
    (List.length (recv_script e) < fuel ->
     drainTiKV fuel (component b) n b e <> None) /\
    (forall b' e',
       drainTiKV fuel (component b) n b e = Some (b', e') ->
       drained n b e b' e').
Proof.
  induction fuel as [|fuel IH]; intros n b e Hg.
  { split; [intros H; inversion H|discriminate]. }
  cbn [drainTiKV]. unfold scrapeTiKVRecord.
  destruct (scrape_effects b e (proj2 (proj2 Hg))) as (l1 & c1 & He1 & Ha1 & Hp1).
  pose proof (scrape_spec b e (proj1 Hg) (proj1 (proj2 Hg))) as [Hp _].
  pose proof (scrape_one_message b e l1 c1) as Hone.
  destruct (scrape b e) as [[v b1] e1]. cbn [fst snd] in *.
  destruct (assert_ResourceUsageRecord v) as [r|] eqn:Hv.
  2:{ split; [discriminate|]. intros b' e' E. injection E as <- <-.
      eapply drained_stop; eassumption. }
  assert (Hm : payload v = [usage_record r]).
  { destruct v as [|p|[r'|]]; cbn in Hv; try discriminate.
    injection Hv as ->. reflexivity. }
  destruct (Hone _ He1 Hp1 Hm) as [Hk1 Hlen].
  assert (Hg1 : good b1 e1) by exact (good_post _ _ _ _ Hg Hp).
  assert (Ec : component b1 = component b) by apply Hp.
  destruct (since_effects b1 e1) as [He2 Hnx].
  assert (Hrs : recv_script (snd (since_over_a_second e1)) = recv_script e1).
  { destruct He2 as (_ & E & _). rewrite E. reflexivity. }
  destruct (since_over_a_second e1) as [over e2]. cbn [snd] in *.
  assert (Hg2 : good b1 e2) by exact (good_same_conn _ _ _ Hg1 Hnx).
  destruct over.
  - set (e3 := log_Info "Received Top SQL record" (Some (S n)) (component b) e2).
    assert (He3 : effects b1 e2
                    [EvInfo "Received Top SQL record" (Some (S n)) (component b)]
                    [] b1 e3).
    { subst e3. rewrite <- Ec. apply log_Info_effects. }
    assert (Hg3 : good b1 e3).
    { apply (good_same_conn _ e2); [exact Hg2|reflexivity]. }
    destruct (IH 0 b1 e3 Hg3) as [IHt IHd]. rewrite Ec in IHt, IHd.
    split.
    + intros Hlt. apply IHt. subst e3. cbn [log_Info emit recv_script].
      rewrite Hrs. lia.
    + intros b' e' E. specialize (IHd b' e' E).
      pose proof (effects_trans _ _ _ _ _ _ _ _ _ _ He2 He3) as He23.
      cbn [app] in He23.
      eapply (drained_step n 0 b e b1 e1 l1 c1 e3
                [EvInfo "Received Top SQL record" (Some (S n)) (component b)]);
        try eassumption.
      * constructor; [reflexivity|constructor].
      * constructor; [cbn; lia|constructor].
      * cbn. lia.
  - destruct (IH (S n) b1 e2 Hg2) as [IHt IHd]. rewrite Ec in IHt, IHd.
    split.
    + intros Hlt. apply IHt. rewrite Hrs. lia.
    + intros b' e' E. specialize (IHd b' e' E).
      eapply (drained_step n (S n) b e b1 e1 l1 c1 e2 []); try eassumption.
      * constructor.
      * constructor.
      * reflexivity.
Qed.

Lemma Run_drained fuel s e :
  recognised (Kind (scraper_component s)) = true ->
  (List.length (recv_script e) < fuel ->
   exists b' e', Run fuel s e = Returned b' e') /\
  (forall b' e',
     Run fuel s e = Returned b' e' ->
     exists later consumed,
       effects (newBackoffScrape (tlsConfig s) (Addr (scraper_component s))
                                 (scraper_component s))
               e later consumed b' e' /\
       Forall (allowed_run s) later /\
       Forall reports_some later /\
       logged later <= count is_recv_ok later /\
       all_absent b').
Proof.
  intros Hk.
  set (b0 := newBackoffScrape (tlsConfig s) (Addr (scraper_component s))
                              (scraper_component s)).
  set (e0 := log_Info "Starting Top SQL scraping" None (scraper_component s) e).
  assert (Hg0 : good b0 e0) by apply good_new.
  assert (He0 : effects b0 e
                  [EvInfo "Starting Top SQL scraping" None (scraper_component s)]
                  [] b0 e0) by apply (log_Info_effects _ _ b0 e).
  assert (Hfin : forall b1 e1,
            drained 0 b0 e0 b1 e1 ->
            exists later consumed,
              effects b0 e later consumed (fst (close b1 e1)) (snd (close b1 e1))
              /\ Forall (allowed_run s) later /\ Forall reports_some later /\
              logged later <= count is_recv_ok later /\
              all_absent (fst (close b1 e1))).
  { intros b1 e1 (l1 & c1 & He1 & Ha1 & Hr1 & Hl1 & Hg1 & Hc1).
    destruct (close_effects b1 e1) as (l2 & He2 & Ha2).
    destruct (allowed_quiet b1 l2 Ha2) as (Hl2 & Hr2 & Hal2).
    exists ((l2 ++ l1) ++ [EvInfo "Starting Top SQL scraping" None
                             (scraper_component s)])%list,
           ([] ++ c1 ++ [])%list.
    repeat match goal with |- _ /\ _ => split end.
    - eapply effects_trans; [exact He0|].
      eapply effects_trans; [exact He1|exact He2].
    - apply Forall_app. split; [apply Forall_app; split|].
      + eapply Forall_impl; [|exact Hal2]. intros ev.
        apply allowed_loop_config, Hc1.
      + exact Ha1.
      + constructor; [reflexivity|constructor].
    - apply Forall_app. split; [apply Forall_app; split|]; try assumption.
      constructor; [exact I|constructor].
    - rewrite !logged_app, !count_app. cbn. lia.
    - apply close_spec, Hg1. }
  unfold Run. fold e0.
  destruct (Kind (scraper_component s)) eqn:K; try discriminate Hk.
  - unfold scrapeTiDB. fold b0.
    destruct (drainTiDB_drained fuel 0 b0 e0 Hg0) as [Ht Hd].
    change (component b0) with (scraper_component s) in Ht, Hd.
    destruct (drainTiDB fuel (scraper_component s) 0 b0 e0) as [[b1 e1]|].
    + specialize (Hfin b1 e1 (Hd b1 e1 eq_refl)).
      destruct (close b1 e1) as [b2 e2]. cbn [fst snd] in Hfin. split.
      * intros _. eauto.
      * intros b' e' E. injection E as <- <-. exact Hfin.
    + split; [|discriminate]. intros Hlt. exfalso. apply Ht; [exact Hlt|reflexivity].
  - unfold scrapeTiKV. fold b0.
    destruct (drainTiKV_drained fuel 0 b0 e0 Hg0) as [Ht Hd].
    change (component b0) with (scraper_component s) in Ht, Hd.
    destruct (drainTiKV fuel (scraper_component s) 0 b0 e0) as [[b1 e1]|].
    + specialize (Hfin b1 e1 (Hd b1 e1 eq_refl)).
      destruct (close b1 e1) as [b2 e2]. cbn [fst snd] in Hfin. split.
      * intros _. eauto.
      * intros b' e' E. injection E as <- <-. exact Hfin.
    + split; [|discriminate]. intros Hlt. exfalso. apply Ht; [exact Hlt|reflexivity].
Qed.

Lemma allowed_loop_split b ev :
  allowed_loop b ev ->
  configured (tlsCfg b) (address b) (component b) (firstWaitTime b) ev /\
  speaks (Kind (component b)) ev.
Proof.
  destruct ev as [c|a sec r|[cc|cc] ok|[cc|cc] ok|d n el|m t|m n t];
    cbn; auto.
Qed.

Lemma Forall_allowed_split b l :
  Forall (allowed_loop b) l ->
  Forall (configured (tlsCfg b) (address b) (component b) (firstWaitTime b)) l
  /\ Forall (speaks (Kind (component b))) l.
Proof.
  intros H. split; (eapply Forall_impl; [|exact H]); intros ev Hev;
    apply (allowed_loop_split b ev Hev).
Qed.

Lemma Run_Returned_recognised fuel s e b' e' :
  Run fuel s e = Returned b' e' ->
  recognised (Kind (scraper_component s)) = true.
Proof.
  unfold Run. destruct (Kind (scraper_component s)); try reflexivity.
  discriminate.
Qed.

Lemma opened_at_most_once e e' l c :
  count (is_open c) l = (if created e e' c then 1 else 0) ->
  count (is_open c) l <= 1.
Proof. intros ->. destruct (created e e' c); lia. Qed.

(** ** Connections are neither leaked nor released twice *)

(** X1. At every point between the operations of a reconnecting stream,
    of the connections it has opened since construction each was opened
    once, and each has been released exactly once, except the one held
    in [conn], which has not been released. *)
Theorem held_connection_is_the_only_open_one :
  forall tls addr comp e0 ops,
    let b := fst (run_ops ops (newBackoffScrape tls addr comp, e0)) in
    let e := snd (run_ops ops (newBackoffScrape tls addr comp, e0)) in
    exists later,
      trace e = (later ++ trace e0)%list /\
      forall c,
        count (is_open c) later = closes_of c later + live b c /\
        count (is_open c) later <= 1.
Proof.
  intros tls addr comp e0 ops b e.
  destruct (run_ops_effects ops _ e0 (good_new tls addr comp e0))
    as (l & c & (Ht & _ & _ & _ & Hc & Ho) & _).
  exists l. split; [exact Ht|]. intros x. split.
  - specialize (Hc x). fold b in Hc. unfold live at 2 in Hc. cbn in Hc. lia.
  - eapply opened_at_most_once, Ho.
Qed.

(** X2. When [Run] returns, the connection state is empty and every
    connection dialled during the run has been released exactly once:
    none is leaked, none is closed twice, none is closed that was not
    opened. *)
Theorem Run_releases_every_connection :
  forall fuel s e b' e',
    Run fuel s e = Returned b' e' ->
    all_absent b' /\
    exists later,
      trace e' = (later ++ trace e)%list /\
      forall c,
        closes_of c later = count (is_open c) later /\
        count (is_open c) later <= 1.
Proof.
  intros fuel s e b' e' E.
  destruct (Run_drained fuel s e (Run_Returned_recognised _ _ _ _ _ E))
    as [_ H].
  destruct (H b' e' E)
    as (l & c & (Ht & _ & _ & _ & Hc & Ho) & _ & _ & _ & Hab).
  split; [exact Hab|]. exists l. split; [exact Ht|]. intros x. split.
  - specialize (Hc x). unfold live in Hc. cbn [newBackoffScrape conn] in Hc.
    destruct Hab as (E0 & _). rewrite E0 in Hc. lia.
  - eapply opened_at_most_once, Ho.
Qed.

Lemma Run_releases_every_connection_witness :
  exists b' e',
    Run 5 (mkScraper None tidb_target) env_two_records = Returned b' e' /\
    all_absent b' /\
    exists later,
      trace e' = (later ++ trace env_two_records)%list /\
      forall c,
        closes_of c later = count (is_open c) later /\
        count (is_open c) later <= 1.
Proof.
  eexists. eexists. split; [vm_compute; reflexivity|].
  apply (Run_releases_every_connection 5 (mkScraper None tidb_target)
           env_two_records).
  vm_compute. reflexivity.
Defined.

(** ** Records are delivered in the order of the wire *)

(** X3. Across any number of consecutive [scrape] calls, reconnects
    included, the messages returned are exactly the messages the wire
    delivered in the answers used up, in the same order: none is lost,
    none is duplicated, none is reordered. *)
Theorem scrape_delivers_in_wire_order :
  forall tls addr comp e0 k,
    let r := scrapes k (newBackoffScrape tls addr comp) e0 in
    exists consumed,
      recv_script e0 = (consumed ++ recv_script (snd r))%list /\
      messages (fst (fst r)) = delivered consumed.
Proof.
  intros tls addr comp e0 k r.
  destruct (scrapes_effects k _ e0 (good_new tls addr comp e0))
    as (l & c & (_ & Hr & _) & Hm).
  exists c. split; [exact Hr|exact Hm].
Qed.

(** ** A stream stays on its endpoint and in its protocol *)

(** X4. Whatever operations are run on a reconnecting stream, every dial
    it makes goes to the address it was constructed with, secured exactly
    when a TLS configuration was given; every wait starts from the first
    wait time of two seconds; every warning names its own target. *)
Theorem stream_keeps_its_endpoint :
  forall tls addr comp e0 ops,
    exists later,
      trace (snd (run_ops ops (newBackoffScrape tls addr comp, e0)))
      = (later ++ trace e0)%list /\
      Forall (configured tls addr comp (2 * Second)%Z) later.
Proof.
  intros tls addr comp e0 ops.
  destruct (run_ops_effects ops _ e0 (good_new tls addr comp e0))
    as (l & c & (Ht & _) & Ha).
  exists l. split; [exact Ht|].
  destruct (allowed_quiet _ l Ha) as (_ & _ & Hal).
  exact (proj1 (Forall_allowed_split _ l Hal)).
Qed.

(** X5. Whatever operations are run on a reconnecting stream, it only
    subscribes and reads in the protocol of its target's kind: a TiDB
    stream never touches the TiKV service and conversely, and a stream
    of an unrecognised kind never subscribes or reads at all. *)
Theorem stream_keeps_its_protocol :
  forall tls addr comp e0 ops,
    exists later,
      trace (snd (run_ops ops (newBackoffScrape tls addr comp, e0)))
      = (later ++ trace e0)%list /\
      Forall (speaks (Kind comp)) later /\
      (recognised (Kind comp) = false ->
       count is_subscribe later = 0 /\ count is_recv later = 0).
Proof.
  intros tls addr comp e0 ops.
  destruct (run_ops_effects ops _ e0 (good_new tls addr comp e0))
    as (l & c & (Ht & _) & Ha).
  exists l. split; [exact Ht|].
  destruct (allowed_quiet _ l Ha) as (_ & _ & Hal).
  pose proof (proj2 (Forall_allowed_split _ l Hal)) as Hs.
  cbn [newBackoffScrape component] in Hs. split; [exact Hs|].
  intros Hk. clear - Hs Hk.
  induction Hs as [|ev l Hev _ IH]; [split; reflexivity|].
  destruct IH as [IH1 IH2].
  destruct ev as [x|a sec r|[cc|cc] ok|[cc|cc] ok|d n el|m t|m n t];
    cbn in Hev; try (rewrite Hev in Hk; discriminate Hk);
    split; assumption.
Qed.

Lemma stream_keeps_its_protocol_witness :
  exists later,
    trace (snd (run_ops [OpScrape; OpScrape; OpClose] (other_bo, env_breaks)))
    = (later ++ trace env_breaks)%list /\
    count is_subscribe later = 0 /\ count is_recv later = 0.
Proof.
  destruct (stream_keeps_its_protocol None "pd:2379" other_target env_breaks
              [OpScrape; OpScrape; OpClose]) as (l & Ht & _ & H).
  exists l. split; [exact Ht|exact (H eq_refl)].
Defined.

(** X6. When [Run] returns, everything it asked of the world concerned
    its own target: dials to the address of the component, secured
    exactly when the scraper has a TLS configuration, log lines naming
    the component, and subscriptions and reads in the protocol of the
    component's kind only. *)
Theorem Run_stays_on_its_target :
  forall fuel s e b' e',
    Run fuel s e = Returned b' e' ->
    exists later,
      trace e' = (later ++ trace e)%list /\
      Forall (configured (tlsConfig s) (Addr (scraper_component s))
                         (scraper_component s) (2 * Second)%Z) later /\
      Forall (speaks (Kind (scraper_component s))) later.
Proof.
  intros fuel s e b' e' E.
  destruct (Run_drained fuel s e (Run_Returned_recognised _ _ _ _ _ E))
    as [_ H].
  destruct (H b' e' E) as (l & c & (Ht & _) & Ha & _).
  exists l. split; [exact Ht|].
  exact (Forall_allowed_split _ l Ha).
Qed.

Lemma Run_stays_on_its_target_witness :
  exists b' e' later,
    Run 5 (mkScraper (Some 1) tikv_target) env_two_records = Returned b' e' /\
    trace e' = (later ++ trace env_two_records)%list /\
    Forall (configured (Some 1) "tikv:20180" tikv_target (2 * Second)%Z) later
    /\ Forall (speaks ComponentTiKV) later.
Proof.
  assert (E : exists b' e',
            Run 5 (mkScraper (Some 1) tikv_target) env_two_records
            = Returned b' e').
  { eexists. eexists. vm_compute. reflexivity. }
  destruct E as (b' & e' & E).
  destruct (Run_stays_on_its_target 5 (mkScraper (Some 1) tikv_target)
              env_two_records b' e' E) as (l & H).
  exists b', e', l. split; [exact E|exact H].
Defined.

(** ** The cost of reconnecting *)

(** X7. One reconnect attempt makes exactly one dial; it makes the
    subscribe call exactly when the dial succeeded and the kind is
    recognised, and one read exactly when the subscribe call succeeded;
    it never waits; it logs one warning when it fails and none when it
    succeeds; and it succeeds exactly when the dial succeeded and, for a
    recognised kind, the read delivered a message. *)
Theorem attempt_anatomy :
  forall retried fr,
    exists later consumed,
      trace (world (snd (backoffScrape_attempt retried fr)))
      = (later ++ trace (world fr))%list /\
      recv_script (world fr)
      = (consumed
         ++ recv_script (world (snd (backoffScrape_attempt retried fr))))%list
      /\
      anatomy (Kind (component (this fr)))
              (fst (backoffScrape_attempt retried fr)) later consumed.
Proof.
  intros i fr.
  destruct (attempt_effects i fr) as (l & c & (Ht & Hr & _) & _ & Han & _).
  exists l, c. auto.
Qed.

Lemma count_le p q l :
  (forall ev, p ev = true -> q ev = true) -> count p l <= count q l.
Proof.
  intros H. unfold count. induction l as [|ev l IH]; [reflexivity|].
  cbn [filter]. destruct (p ev) eqn:Ep.
  - rewrite (H ev Ep). cbn. lia.
  - destruct (q ev); cbn; lia.
Qed.

Lemma retry_budget first n :
  forall i fr,
    let run := retry_from bo_ctx first backoffScrape_attempt n i fr in
    exists later,
      trace (world (snd run)) = (later ++ trace (world fr))%list /\
      count is_dial later <= n /\
      count is_wait later <= n - 1 /\
      count is_wait later <= count is_dial later /\
      count is_warn later + (if fst run then 1 else 0) = count is_dial later /\
      count is_subscribe later <= count is_dial later /\
      count is_recv later <= count is_subscribe later.
Proof.
  induction n as [|n IH]; intros i fr run.
  { exists []. subst run. cbn. repeat split; lia. }
  destruct (attempt_effects i fr)
    as (la & ca & (Hta & _) & _ & (Hd & Hs & Hr & _ & Hw & Hwarn & _) & _).
  assert (Hs' : count is_subscribe la <= 1).
  { rewrite Hs. destruct (recognised _); [|lia].
    rewrite <- Hd. apply count_le. intros [ | ? ? [?|] | | | | | ]; auto. }
  assert (Hr' : count is_recv la <= count is_subscribe la).
  { rewrite Hr. apply count_le. intros [ | | ? [|] | | | | ]; auto. }
  subst run. destruct n as [|n].
  - rewrite retry_from_one.
    destruct (backoffScrape_attempt i fr) as [ok fr1]. cbn [fst snd] in *.
    exists la. destruct ok; cbn iota in Hwarn; cbn [fst snd];
      repeat match goal with |- _ /\ _ => split end; try assumption; lia.
  - rewrite retry_from_more.
    destruct (backoffScrape_attempt i fr) as [ok fr1]. cbn [fst snd] in *.
    destruct ok; cbn iota in Hwarn.
    { exists la. cbn [fst snd].
      repeat match goal with |- _ /\ _ => split end; try assumption; lia. }
    destruct (bo_ctx_effects first i fr1) as (el & (Htw & _) & Hel).
    specialize (IH (S i) (snd (bo_ctx first i fr1))).
    destruct (bo_ctx first i fr1) as [el' fr2]. cbn [fst snd] in *. subst el'.
    destruct el.
    + destruct IH as (lr & Htr & H1 & H2 & H3 & H4 & H5 & H6).
      exists (lr ++ [EvWait first i true] ++ la)%list.
      repeat match goal with |- _ /\ _ => split end.
      * rewrite Htr, Htw, Hta, <- !app_assoc. reflexivity.
      * rewrite !count_app. cbn -[retry_from]. lia.
      * rewrite !count_app. cbn -[retry_from]. lia.
      * rewrite !count_app. cbn -[retry_from]. lia.
      * rewrite !count_app. cbn -[retry_from]. lia.
      * rewrite !count_app. cbn -[retry_from]. lia.
      * rewrite !count_app. cbn -[retry_from]. lia.
    + exists ([EvWait first i false] ++ la)%list. cbn [fst snd].
      repeat match goal with |- _ /\ _ => split end.
      * rewrite Htw, Hta. reflexivity.
      * rewrite !count_app. cbn -[retry_from]. lia.
      * rewrite !count_app. cbn -[retry_from]. lia.
      * rewrite !count_app. cbn -[retry_from]. lia.
      * rewrite !count_app. cbn -[retry_from]. lia.
      * rewrite !count_app. cbn -[retry_from]. lia.
      * rewrite !count_app. cbn -[retry_from]. lia.
Qed.

(** X8. One call of [backoffScrape] dials at most [maxRetryTimes] times
    and waits at most [maxRetryTimes - 1] times, never more often than
    it dialled; every failed attempt is logged by one warning, so the
    warnings are the dials, less one when the call succeeds; and there
    are no more subscribe calls than dials and no more reads than
    subscribe calls. *)
Theorem backoffScrape_budget :
  forall b e,
    exists later,
      trace (snd (backoffScrape b e)) = (later ++ trace e)%list /\
      count is_dial later <= maxRetryTimes b /\
      count is_wait later <= maxRetryTimes b - 1 /\
      count is_wait later <= count is_dial later /\
      count is_warn later + (if fst (reconnect b e) then 1 else 0)
      = count is_dial later /\
      count is_subscribe later <= count is_dial later /\
      count is_recv later <= count is_subscribe later.
Proof.
  intros b e. rewrite backoffScrape_reconnect. cbn [snd].
  exact (retry_budget (firstWaitTime b) (maxRetryTimes b) 0 (mkFrame INil b e)).
Qed.

(** ** The drain loop ends, and its log is honest *)

(** X9. For a target of a recognised kind [Run] returns, with the
    connection state empty, as soon as the wire has nothing more to
    deliver: a fuel above the number of answers left on the wire is
    enough, whatever the dials, the subscribe calls and the waits do. *)
Theorem Run_returns_when_the_wire_runs_dry :
  forall fuel s e,
    recognised (Kind (scraper_component s)) = true ->
    List.length (recv_script e) < fuel ->
    exists b' e', Run fuel s e = Returned b' e' /\ all_absent b'.
Proof.
  intros fuel s e Hk Hlt.
  destruct (Run_drained fuel s e Hk) as [Ht Hd].
  destruct (Ht Hlt) as (b' & e' & E).
  exists b', e'. split; [exact E|].
  destruct (Hd b' e' E) as (l & c & _ & _ & _ & _ & Hab). exact Hab.
Qed.

Lemma Run_returns_when_the_wire_runs_dry_witness :
  recognised (Kind (scraper_component (mkScraper None tidb_target))) = true /\
  List.length (recv_script env_two_records) < 4 /\
  exists b' e',
    Run 4 (mkScraper None tidb_target) env_two_records = Returned b' e' /\
    all_absent b'.
Proof.
  assert (H1 : recognised (Kind (scraper_component
                                   (mkScraper None tidb_target))) = true)
    by reflexivity.
  assert (H2 : List.length (recv_script env_two_records) < 4) by (cbn; lia).
  split; [exact H1|]. split; [exact H2|].
  exact (Run_returns_when_the_wire_runs_dry 4 (mkScraper None tidb_target)
           env_two_records H1 H2).
Defined.

(** X10. When [Run] returns, its throughput log lines together report
    no more records than were read from the stream during the run, and
    no line reports zero records. *)
Theorem throughput_log_never_overreports :
  forall fuel s e b' e',
    Run fuel s e = Returned b' e' ->
    exists later,
      trace e' = (later ++ trace e)%list /\
      logged later <= count is_recv_ok later /\
      Forall reports_some later.
Proof.
  intros fuel s e b' e' E.
  destruct (Run_drained fuel s e (Run_Returned_recognised _ _ _ _ _ E))
    as [_ H].
  destruct (H b' e' E) as (l & c & (Ht & _) & _ & Hr & Hl & _).
  exists l. auto.
Qed.

Lemma throughput_log_never_overreports_witness :
  exists b' e' later,
    Run 5 (mkScraper None tidb_target) env_two_records = Returned b' e' /\
    trace e' = (later ++ trace env_two_records)%list /\
    logged later <= count is_recv_ok later /\
    Forall reports_some later.
Proof.
  assert (E : exists b' e',
            Run 5 (mkScraper None tidb_target) env_two_records
            = Returned b' e').
  { eexists. eexists. vm_compute. reflexivity. }
  destruct E as (b' & e' & E).
  destruct (throughput_log_never_overreports 5 (mkScraper None tidb_target)
              env_two_records b' e' E) as (l & H).
  exists b', e', l. split; [exact E|exact H].
Defined.

(** ** Cancellation *)

Lemma cancelled_head (l : list bool) :
  Forall (fun a => a = false) l ->
  l = [] \/ exists l', l = false :: l' /\ Forall (fun a => a = false) l'.
Proof.
  intros H. destruct H as [|a l Ha Hl]; [left; reflexivity|].
  right. exists l. subst a. split; [reflexivity|exact Hl].
Qed.

(** X11. Once the context is cancelled, [Run] for a target of a
    recognised kind returns at once: it logs its start, makes one dial,
    which fails and is logged, is cut short in the wait that follows and
    gives up; no connection was opened, none is held, and the context
    stays cancelled. *)
Theorem Run_returns_once_cancelled :
  forall fuel s e,
    recognised (Kind (scraper_component s)) = true ->
    ctx_cancelled e ->
    exists e',
      Run (S fuel) s e
      = Returned (newBackoffScrape (tlsConfig s) (Addr (scraper_component s))
                                   (scraper_component s)) e' /\
      trace e'
      = ([EvWait (2 * Second)%Z 0 false;
          EvWarn "Failed to dial Top SQL scrape target" (scraper_component s);
          EvDial (Addr (scraper_component s)) (secure_of (tlsConfig s)) None;
          EvInfo "Starting Top SQL scraping" None (scraper_component s)]
         ++ trace e)%list /\
      ctx_cancelled e'.
Proof.
  intros fuel [tls [kd ad]] [ds ss rs ws cs nc tr] Hk (Hd & Hs & Hr & Hw).
  cbn [dial_script subscribe_script recv_script wait_script] in *.
  cbn [scraper_component Kind] in Hk.
  destruct (cancelled_head ds Hd) as [->|(ds' & -> & Hd')];
    destruct (cancelled_head ws Hw) as [->|(ws' & -> & Hw')];
    destruct kd; try discriminate Hk; destruct tls;
    (eexists; split; [reflexivity|]; split; [reflexivity|]);
    unfold ctx_cancelled; cbn; auto.
Qed.

Lemma Run_returns_once_cancelled_witness :
  recognised (Kind (scraper_component (mkScraper None tikv_target))) = true /\
  ctx_cancelled env_done /\
  exists e',
    Run 1 (mkScraper None tikv_target) env_done
    = Returned tikv_bo e' /\
    count is_dial (trace e') = 1 /\ ctx_cancelled e'.
Proof.
  assert (H1 : recognised (Kind (scraper_component
                                   (mkScraper None tikv_target))) = true)
    by reflexivity.
  assert (H2 : ctx_cancelled env_done).
  { unfold ctx_cancelled, env_done; cbn. repeat split; repeat constructor. }
  destruct (Run_returns_once_cancelled 0 (mkScraper None tikv_target)
              env_done H1 H2) as (e' & E & Ht & Hc).
  split; [exact H1|]. split; [exact H2|].
  exists e'. split; [exact E|]. split; [rewrite Ht; reflexivity|exact Hc].
Defined.

(** ** The nil record *)

(** X12. [backoffScrape] returns the nil interface exactly when none of
    its attempts got as far as a read; once a read was made it returns a
    typed pointer, which is nil when the last read failed.  It reads
    successfully at most once, and it returns a message exactly when it
    did: no message is read and dropped. *)
Theorem backoffScrape_nil_iff_no_read :
  forall b e,
    exists later,
      trace (snd (backoffScrape b e)) = (later ++ trace e)%list /\
      (fst (fst (backoffScrape b e)) = INil <-> count is_recv later = 0) /\
      count is_recv_ok later = List.length (payload (fst (fst (backoffScrape b e))))
      /\
      (carries_message (fst (fst (backoffScrape b e))) = true <->
       count is_recv_ok later = 1).
Proof.
  intros b e.
  destruct (backoffScrape_effects b e)
    as (l & c & (Ht & _ & _ & Hk & _) & _ & Hp & Hn).
  exists l. split; [exact Ht|]. split; [exact Hn|].
  rewrite Hk, <- Hp. split; [reflexivity|].
  destruct (fst (fst (backoffScrape b e))) as [|[r|]|[r|]]; cbn;
    split; intros H; try reflexivity; discriminate H.
Qed.

(** ** The life of a scraper *)

Lemma ctx_cancel_length st c : List.length (ctx_cancel st c) = List.length st.
Proof.
  induction st as [|node rest IH]; [reflexivity|].
  cbn [ctx_cancel]. destruct (Nat.eqb c (List.length rest)); cbn; congruence.
Qed.

Lemma ctx_cancel_done st c :
  c < List.length st -> ctx_done (ctx_cancel st c) c = true.
Proof.
  induction st as [|node rest IH]; cbn [List.length]; [lia|]. intros Hlt.
  cbn [ctx_cancel]. destruct (Nat.eqb_spec c (List.length rest)) as [E|N].
  - cbn [ctx_done]. rewrite E, Nat.eqb_refl. reflexivity.
  - cbn [ctx_done]. rewrite ctx_cancel_length.
    destruct (Nat.eqb_spec c (List.length rest)); [contradiction|].
    apply IH. lia.
Qed.

Lemma ctx_cancel_twice st c : ctx_cancel (ctx_cancel st c) c = ctx_cancel st c.
Proof.
  induction st as [|node rest IH]; [reflexivity|].
  cbn [ctx_cancel]. destruct (Nat.eqb_spec c (List.length rest)) as [E|N].
  - cbn [ctx_cancel]. rewrite E, Nat.eqb_refl. reflexivity.
  - cbn [ctx_cancel]. rewrite ctx_cancel_length.
    destruct (Nat.eqb_spec c (List.length rest)); [contradiction|].
    rewrite IH. reflexivity.
Qed.

(** X13. Two scrapers created from the same parent context are down at
    first exactly when the parent already is.  [Close] on the first
    makes [IsDown] true for it, leaves the second and the parent as they
    were, and a second [Close] changes nothing more. *)
Theorem Close_stops_only_its_scraper :
  forall st p comp1 tls1 comp2 tls2,
    p < List.length st ->
    let '(s1, c1, st1) := NewScraper (Some p) comp1 tls1 st in
    let '(s2, c2, st2) := NewScraper (Some p) comp2 tls2 st1 in
    IsDown c1 st2 = ctx_done st p /\
    IsDown c2 st2 = ctx_done st p /\
    IsDown c1 (Close c1 st2) = true /\
    IsDown c2 (Close c1 st2) = IsDown c2 st2 /\
    ctx_done (Close c1 st2) p = ctx_done st p /\
    Close c1 (Close c1 st2) = Close c1 st2.
Proof.
  intros st p comp1 tls1 comp2 tls2 Hp.
  unfold NewScraper, WithCancel, IsDown, Close.
  cbn [ctx_done ctx_cancel List.length ctx_flag ctx_parent orb].
  repeat match goal with
    | |- context [Nat.eqb ?a ?b] => destruct (Nat.eqb_spec a b); try lia
    end;
  cbn [ctx_done ctx_cancel List.length ctx_flag ctx_parent orb];
  repeat match goal with
    | |- context [Nat.eqb ?a ?b] => destruct (Nat.eqb_spec a b); try lia
    end;
  repeat split.
Qed.

Lemma Close_stops_only_its_scraper_witness :
  0 < List.length store_one /\
  let '(s1, c1, st1) := NewScraper (Some 0) tidb_target None store_one in
  let '(s2, c2, st2) := NewScraper (Some 0) tikv_target None st1 in
  IsDown c1 (Close c1 st2) = true /\ IsDown c2 (Close c1 st2) = false.
Proof.
  assert (H : 0 < List.length store_one) by (cbn; lia).
  split; [exact H|].
  pose proof (Close_stops_only_its_scraper store_one 0 tidb_target None
                tikv_target None H) as T.
  cbn in T. cbn. destruct T as (_ & _ & T3 & T4 & _).
  split; [exact T3|exact T4].
Defined.

(** X14. Cancelling the parent context brings down every scraper created
    from it, without any [Close]. *)
Theorem parent_cancellation_stops_scrapers :
  forall st p comp1 tls1 comp2 tls2,
    p < List.length st ->
    let '(s1, c1, st1) := NewScraper (Some p) comp1 tls1 st in
    let '(s2, c2, st2) := NewScraper (Some p) comp2 tls2 st1 in
    IsDown c1 (ctx_cancel st2 p) = true /\
    IsDown c2 (ctx_cancel st2 p) = true.
Proof.
  intros st p comp1 tls1 comp2 tls2 Hp.
  unfold NewScraper, WithCancel, IsDown.
  cbn [ctx_cancel List.length].
  repeat match goal with
    | |- context [Nat.eqb ?a ?b] => destruct (Nat.eqb_spec a b); try lia
    end.
  cbn [ctx_done List.length ctx_flag ctx_parent orb].
  rewrite !ctx_cancel_length.
  repeat match goal with
    | |- context [Nat.eqb ?a ?b] => destruct (Nat.eqb_spec a b); try lia
    end.
  rewrite (ctx_cancel_done st p Hp). split; reflexivity.
Qed.

Lemma parent_cancellation_stops_scrapers_witness :
  0 < List.length store_one /\
  let '(s1, c1, st1) := NewScraper (Some 0) tidb_target None store_one in
  let '(s2, c2, st2) := NewScraper (Some 0) tikv_target None st1 in
  IsDown c1 (ctx_cancel st2 0) = true /\ IsDown c2 (ctx_cancel st2 0) = true.
Proof.
  assert (H : 0 < List.length store_one) by (cbn; lia).
  split; [exact H|].
  exact (parent_cancellation_stops_scrapers store_one 0 tidb_target None
           tikv_target None H).
Defined.

(** ** Retry exhaustion, as [backoffScrape] performs it (C2) *)

Lemma retry_exhausted_counts first n :
  forall i fr,
    always_fails bo_ctx first backoffScrape_attempt n i fr ->
    exists later,
      trace (world (snd (retry_from bo_ctx first backoffScrape_attempt n i fr)))
      = (later ++ trace (world fr))%list /\
      count is_dial later = n /\
      count is_warn later = n /\
      count is_wait later = n - 1.
Proof.
  induction n as [|n IH]; intros i fr Hfail.
  { exists []. cbn. repeat split. }
  destruct Hfail as [Hf Hrest].
  destruct (attempt_effects i fr)
    as (la & ca & (Hta & _) & _ & (Hd & _ & _ & _ & Hw & Hwarn & _) & _).
  rewrite Hf in Hwarn.
  destruct n as [|n].
  - rewrite retry_from_one.
    destruct (backoffScrape_attempt i fr) as [ok fr1]. cbn [fst snd] in *.
    subst ok. cbn [snd]. exists la.
    repeat match goal with |- _ /\ _ => split end; try assumption; lia.
  - destruct Hrest as [Hel Hrest].
    rewrite retry_from_more.
    destruct (backoffScrape_attempt i fr) as [ok fr1]. cbn [fst snd] in *.
    subst ok.
    destruct (bo_ctx_effects first i fr1) as (el & (Htw & _) & Hel').
    rewrite Hel in Hel'. subst el.
    specialize (IH (S i) (snd (bo_ctx first i fr1)) Hrest).
    destruct (bo_ctx first i fr1) as [el' fr2]. cbn [fst snd] in *.
    subst el'. destruct IH as (lr & Htr & H1 & H2 & H3).
    exists (lr ++ [EvWait first i true] ++ la)%list.
    repeat match goal with |- _ /\ _ => split end.
    + rewrite Htr, Htw, Hta, <- !app_assoc. reflexivity.
    + rewrite !count_app. cbn -[retry_from]. lia.
    + rewrite !count_app. cbn -[retry_from]. lia.
    + rewrite !count_app. cbn -[retry_from]. lia.
Qed.

(** C2. When the stream was built with [maxRetryTimes = 8] and the
    attempt function fails on each of its first eight calls (the waits
    between them elapsing), [backoffScrape] is the run of the retry
    driver on its attempt function: that run reports failure after
    exactly eight calls, and [backoffScrape] returns in the state the
    run ended in, having dialled eight times, warned eight times and
    waited seven times.  The [scrape] call that entered the reconnect
    path then yields no message, both record wrappers return nil in that
    same state, and the drain loop returns in that iteration.  Here
    [e0] is the world in which the wrapper is called and [e] the world
    in which its call reaches [backoffScrape]: [e0] itself when no
    stream is held, [e0] after the failed read otherwise. *)
Theorem exhausted_reconnect_is_terminal :
  forall b e e0,
    maxRetryTimes b = 8 ->
    always_fails bo_ctx (firstWaitTime b) backoffScrape_attempt 8 0
                 (mkFrame INil b e) ->
    scrape b e0 = backoffScrape b e ->
    let run := WithRetryBackoff bo_ctx (firstWaitTime b) backoffScrape_attempt
                 (maxRetryTimes b) (mkFrame INil b e) in
    fst run = false /\
    calls bo_ctx (maxRetryTimes b) (firstWaitTime b) backoffScrape_attempt
          (mkFrame INil b e) = 8 /\
    backoffScrape b e
    = (record (snd run), this (snd run), world (snd run)) /\
    (exists later,
       trace (snd (backoffScrape b e)) = (later ++ trace e)%list /\
       count is_dial later = 8 /\
       count is_warn later = 8 /\
       count is_wait later = 7) /\
    carries_message (fst (fst (backoffScrape b e))) = false /\
    scrapeTiDBRecord b e0
    = (None, snd (fst (backoffScrape b e)), snd (backoffScrape b e)) /\
    scrapeTiKVRecord b e0
    = (None, snd (fst (backoffScrape b e)), snd (backoffScrape b e)) /\
    (forall fuel target n,
       drainTiDB (S fuel) target n b e0
       = Some (snd (fst (backoffScrape b e)), snd (backoffScrape b e))) /\
    (forall fuel target n,
       drainTiKV (S fuel) target n b e0
       = Some (snd (fst (backoffScrape b e)), snd (backoffScrape b e))).
Proof.
  intros b e e0 Hmx Hfail Hscrape run.
  destruct (retry_from_exhausts bo_ctx (firstWaitTime b) backoffScrape_attempt
              8 0 0 (mkFrame INil b e) Hfail) as [Hres Hcalls].
  assert (Hrun : fst (reconnect b e) = false).
  { unfold reconnect, WithRetryBackoff. rewrite Hmx. exact Hres. }
  pose proof (reconnect_failure_record b e Hrun) as Hrec.
  assert (Hbo : backoffScrape b e
                = (record (snd run), this (snd run), world (snd run))).
  { apply backoffScrape_reconnect. }
  assert (Hmsg : carries_message (fst (fst (backoffScrape b e))) = false).
  { rewrite backoffScrape_reconnect. exact Hrec. }
  assert (Hd : scrapeTiDBRecord b e0
               = (None, snd (fst (backoffScrape b e)), snd (backoffScrape b e))).
  { unfold scrapeTiDBRecord. rewrite Hscrape.
    destruct (backoffScrape b e) as [[v b'] e']. cbn [fst snd] in *.
    destruct v as [|[r|]|[r|]]; try reflexivity; discriminate Hmsg. }
  assert (Hk : scrapeTiKVRecord b e0
               = (None, snd (fst (backoffScrape b e)), snd (backoffScrape b e))).
  { unfold scrapeTiKVRecord. rewrite Hscrape.
    destruct (backoffScrape b e) as [[v b'] e']. cbn [fst snd] in *.
    destruct v as [|[r|]|[r|]]; try reflexivity; discriminate Hmsg. }
  split; [exact Hrun|]. split.
  { unfold calls, WithRetryBackoff. rewrite Hmx. exact Hcalls. }
  split; [exact Hbo|]. split.
  { destruct (retry_exhausted_counts (firstWaitTime b) 8 0 (mkFrame INil b e)
                Hfail) as (l & Ht & H1 & H2 & H3).
    exists l. rewrite backoffScrape_reconnect. cbn [snd].
    unfold reconnect, WithRetryBackoff. rewrite Hmx.
    repeat match goal with |- _ /\ _ => split end; assumption. }
  split; [exact Hmsg|]. split; [exact Hd|]. split; [exact Hk|].
  split; intros fuel target n.
  - rewrite <- Hscrape. apply drainTiDB_stops. rewrite Hd. reflexivity.
  - rewrite <- Hscrape. apply drainTiKV_stops. rewrite Hk. reflexivity.
Qed.

Lemma exhausted_reconnect_is_terminal_witness :
  maxRetryTimes tidb_bo = 8 /\
  always_fails bo_ctx (firstWaitTime tidb_bo) backoffScrape_attempt 8 0
               (mkFrame INil tidb_bo env_subscribe_fails) /\
  calls bo_ctx (maxRetryTimes tidb_bo) (firstWaitTime tidb_bo)
        backoffScrape_attempt (mkFrame INil tidb_bo env_subscribe_fails) = 8 /\
  (exists later,
     trace (snd (backoffScrape tidb_bo env_subscribe_fails))
     = (later ++ trace env_subscribe_fails)%list /\
     count is_dial later = 8 /\
     count is_warn later = 8 /\
     count is_wait later = 7) /\
  fst (fst (scrapeTiDBRecord tidb_bo env_subscribe_fails)) = None.
Proof.
  assert (Hmx : maxRetryTimes tidb_bo = 8) by reflexivity.
  assert (Hfail : always_fails bo_ctx (firstWaitTime tidb_bo)
                    backoffScrape_attempt 8 0
                    (mkFrame INil tidb_bo env_subscribe_fails)).
  { vm_compute. repeat split. }
  assert (Hs : scrape tidb_bo env_subscribe_fails
               = backoffScrape tidb_bo env_subscribe_fails) by reflexivity.
  pose proof (exhausted_reconnect_is_terminal tidb_bo env_subscribe_fails
                env_subscribe_fails Hmx Hfail Hs)
    as (_ & Hc & _ & Ht & _ & Hd & _).
  split; [exact Hmx|]. split; [exact Hfail|]. split; [exact Hc|].
  split; [exact Ht|]. rewrite Hd. reflexivity.
Defined.
